(** * Wells map layer: log-curve lookup, colouring and vertex picking

    A shallow embedding of
    [src/lib/components/DeckGLMap/layers/wells/wellsLayer.ts].

    JavaScript numbers are IEEE 754 binary64 values; they are modelled by the
    primitive floats of the kernel, whose operations are the same binary64
    operations (round to nearest even).  Arrays are lists, absent object
    fields and [undefined] results are [option]s, thrown [TypeError]s are the
    [Throw] case of an error monad, and the layer's props object is a finite
    map from prop names to values.

    The functions of other packages stay abstract: [toLowerCase], the d3
    colour ramp and colour parser, and [patchLayerProps].

    The definitions come first: the number model, the data model, the
    functions of the source, and the instances the examples run with.  The
    facts follow: the order on binary64 values, the nearest-vertex scan, the
    log lookup with colours and widths, the normalisation of the continuous
    branch, clicks, and the scan as a loop. *)

From Stdlib Require Import Floats ZArith Bool.
From Stdlib Require Ascii.
From stdpp Require Import gmap strings list.

Local Open Scope Z_scope.

(** ** JavaScript numbers *)

Module JsNumber.

(** [Number.MAX_VALUE], the largest finite binary64 value. *)
Definition MAX_VALUE : float := 0x1.fffffffffffffp+1023%float.

(** [a > b] on numbers: false as soon as one side is [NaN]. *)
Definition gt (a b : float) : bool := (b <? a)%float.

(** [-0] and [+0] compare equal; the sign tells them apart. *)
Definition is_neg_zero (x : float) : bool := is_zero x && get_sign x.
Definition is_pos_zero (x : float) : bool := is_zero x && negb (get_sign x).

(** [a % b], the remainder of the truncating division (the result takes the
    sign of the dividend and is always exact).  Both operands are scaled to
    the common exponent [e], where they are the integers [X] and [Y]. *)
Definition rem (x y : float) : float :=
  match Prim2SF x, Prim2SF y with
  | S754_nan, _ | _, S754_nan => nan
  | S754_infinity _, _ => nan
  | _, S754_zero _ => nan
  | _, S754_infinity _ => x
  | S754_zero _, _ => x
  | S754_finite sx mx ex, S754_finite _ my ey =>
      let e := Z.min ex ey in
      let X := Z.pos mx * 2 ^ (ex - e) in
      let Y := Z.pos my * 2 ^ (ey - e) in
      match X mod Y with
      | Z.pos r => SF2Prim (S754_finite sx r e)
      | _ => if sx then neg_zero else zero
      end
  end.

(** [Math.min(...l)]: [+Infinity] for no argument, [NaN] as soon as one
    argument is [NaN], and [-0] counts as smaller than [+0]. *)
Fixpoint min_from (lowest : float) (l : list float) : float :=
  match l with
  | [] => lowest
  | n :: rest =>
      if is_nan n then nan
      else if (is_neg_zero n && is_pos_zero lowest) || (n <? lowest)%float
           then min_from n rest
           else min_from lowest rest
  end.

Definition Math_min (l : list float) : float := min_from infinity l.

(** [Math.max(...l)]: [-Infinity] for no argument, [NaN] as soon as one
    argument is [NaN], and [+0] counts as larger than [-0]. *)
Fixpoint max_from (highest : float) (l : list float) : float :=
  match l with
  | [] => highest
  | n :: rest =>
      if is_nan n then nan
      else if (is_pos_zero n && is_neg_zero highest) || (highest <? n)%float
           then max_from n rest
           else max_from highest rest
  end.

Definition Math_max (l : list float) : float := max_from neg_infinity l.

(** [arr[k]] for a number [k]: the element at index [n] when [k] is the
    integer [n] ([-0] names index [0]); [undefined] for every other key
    (negative, fractional, [NaN], past the end). *)
Fixpoint index_from {A} (l : list A) (n k : float) : option A :=
  match l with
  | [] => None
  | x :: rest => if (k =? n)%float then Some x else index_from rest (n + 1)%float k
  end.

Definition array_get {A} (l : list A) (k : float) : option A :=
  index_from l 0%float k.

(** The comparison of two numbers as their specification gives it: [None]
    when one of them is [NaN]. *)
Definition cmp (a b : float) : option comparison :=
  SFcompare (Prim2SF a) (Prim2SF b).

End JsNumber.

(** ** Thrown errors *)

Inductive error : Type := TypeError.

Inductive result (A : Type) : Type :=
| Ok (a : A)
| Throw (e : error).

Arguments Ok {A} a.
Arguments Throw {A} e.

Definition bind {A B} (c : result A) (k : A -> result B) : result B :=
  match c with
  | Ok a => k a
  | Throw e => Throw e
  end.

Notation "'let*' x ':=' c 'in' k" := (bind c (fun x => k))
  (at level 10, x name, c at level 100, k at level 200).

(** Reading a property of [undefined] throws. *)
Definition defined {A} (o : option A) : result A :=
  match o with
  | Some a => Ok a
  | None => Throw TypeError
  end.

(** ** Data model *)

(** An element of a [data] row.  The interface declares [data: number[][]];
    the elements of row [0], the trajectory, are indexed as points
    ([a[0]], [a[1]]) by [squared_distance]. *)
Inductive sample : Type :=
| Num (v : float)
| Pt (xs : list float).

Record Curve : Type := {
  name : string;
  description : string;
}.

(** [LogCurveDataType].  A picked object is cast to this type without a
    check, so [curves] and [data] may be absent ([None]) at run time. *)
Record LogCurveDataType : Type := {
  header_name : string;
  curves : option (list Curve);
  data : option (list (list sample));
}.

(** [RGBAColor]: an array of three or four numbers. *)
Definition RGBAColor : Type := list float.

Definition COLOR_MAP : list RGBAColor :=
  [ [0; 0; 0; 0];
    [0; 255; 0; 255];
    [0; 0; 255; 255];
    [255; 255; 0; 255];
    [255; 0; 255; 255];
    [0; 255; 255; 255];
    [125; 125; 255; 255];
    [125; 255; 125; 255];
    [255; 125; 125; 255] ]%float.

(** [arr[z]] for an integer [z]: [undefined] below zero and past the end. *)
Definition at_index {A} (l : list A) (z : Z) : option A :=
  if z <? 0 then None else l !! Z.to_nat z.

(** [Array.prototype.findIndex]: the first index whose element satisfies
    [p], and [-1] when there is none. *)
Fixpoint findIndex_from {A} (p : A -> bool) (l : list A) (i : Z) : Z :=
  match l with
  | [] => -1
  | x :: rest => if p x then i else findIndex_from p rest (i + 1)
  end.

Definition findIndex {A} (p : A -> bool) (l : list A) : Z :=
  findIndex_from p l 0.

(** Truthiness of a [number | undefined]: [undefined] and [0] are falsy, every
    other index, [-1] included, is truthy. *)
Definition truthy_id (log_id : option Z) : bool :=
  match log_id with
  | None => false
  | Some z => negb (z =? 0)
  end.

(** The number a row element stands for in arithmetic: an array goes through
    its string ([[]] is [0], [[x]] is [x] with the sign of zero lost, longer
    arrays are [NaN]). *)
Definition ToNumber (s : sample) : float :=
  match s with
  | Num v => v
  | Pt [] => 0%float
  | Pt [x] => if is_zero x then 0%float else x
  | Pt _ => nan
  end.

(** [a[i]] read as a number: [undefined], hence [NaN], on a number and past
    the end of a point. *)
Definition component (a : sample) (i : nat) : float :=
  match a with
  | Num _ => nan
  | Pt xs => default nan (xs !! i)
  end.

Definition coordinate_component (b : list float) (i : nat) : float :=
  default nan (b !! i).

(** [squared_distance(a, b)], [b] a pointer coordinate. *)
Definition squared_distance (a : sample) (b : list float) : float :=
  let dx := (component a 0 - coordinate_component b 0)%float in
  let dy := (component a 1 - coordinate_component b 1)%float in
  (dx * dx + dy * dy)%float.

(** The [for] loop of [getPickingInfo], from index [i] on; [trajectory] is
    the part of the array not yet visited.  [coordinate] is
    [info.coordinate], [undefined] when the pick carries none: reading
    [b[0]] in [squared_distance] then throws. *)
Fixpoint nearest_from (trajectory : list sample) (coordinate : option (list float))
    (i vertex_index : nat) (min_d : float) : result (nat * float) :=
  match trajectory with
  | [] => Ok (vertex_index, min_d)
  | a :: rest =>
      let* b := defined coordinate in
      let d := squared_distance a b in
      if JsNumber.gt d min_d
      then nearest_from rest coordinate (S i) vertex_index min_d
      else nearest_from rest coordinate (S i) i d
  end.

(** The loop with its initialisation: [min_d = Number.MAX_VALUE],
    [vertex_index = 0]. *)
Definition nearest_vertex (trajectory : list sample) (coordinate : option (list float))
    : result (nat * float) :=
  nearest_from trajectory coordinate 0 0 JsNumber.MAX_VALUE.

(** [PickInfo]: the picked object and the pointer coordinate, with the
    fields the layer does not read. *)
Record PickInfo : Type := {
  object : option LogCurveDataType;
  coordinate : option (list float);
  index : Z;
  x : float;
  y : float;
}.

(** [WellsPickInfo]: a [PickInfo] with two optional fields.  [None] is an
    absent field; a present [propertyValue] may hold [undefined]. *)
Record WellsPickInfo : Type := {
  info : PickInfo;
  propertyValue : option (option sample);
  logName : option string;
}.

(** The input of [getPickingInfo] handed back as it came. *)
Definition unchanged (i : PickInfo) : WellsPickInfo :=
  {| info := i; propertyValue := None; logName := None |}.

(** What [getLogWidth] returns: [null], [undefined] or a row. *)
Inductive width : Type :=
| WNull
| WUndefined
| WRow (row : list sample).

(** A value of the layer's props object. *)
Inductive propval : Type :=
| VUndefined
| VBool (b : bool)
| VNumber (v : float)
| VString (s : string)
| VObject (o : LogCurveDataType).

Definition truthy (v : propval) : bool :=
  match v with
  | VUndefined => false
  | VBool b => b
  | VNumber v => negb (is_zero v || is_nan v)
  | VString s => negb (String.eqb s EmptyString)
  | VObject _ => true
  end.

(** [WellsLayer.defaultProps]. *)
Definition defaultProps : gmap string propval :=
  <["autoHighlight" := VBool true]> (<["selectionEnabled" := VBool true]> ∅).

(** [this.props.k], where [props] holds the props the layer was given: the
    value given, else the default of [defaultProps], else [undefined]. *)
Definition prop (props : gmap string propval) (k : string) : propval :=
  match props !! k with
  | Some v => v
  | None => default VUndefined (defaultProps !! k)
  end.

Definition of_object (o : option LogCurveDataType) : propval :=
  match o with
  | Some d => VObject d
  | None => VUndefined
  end.

(** The layer [this]: the props it was given.  A prop it was not given
    is read through [prop]. *)
Record WellsLayer : Type := {
  props : gmap string propval;
}.

Section Wells.

(** [String.prototype.toLowerCase]. *)
Variable toLowerCase : string -> string.

(** d3's [interpolateRgbBasis(["red", "yellow", "green", "blue"])], a map
    from a number to a CSS colour string, and d3's [color(s)?.rgb()], the
    channels of the colour a string names, [undefined] when it names none. *)
Variable color_interp : float -> string.
Variable color_rgb : string -> option (float * float * float).

(** [patchLayerProps], imported from [../utils/layerTools]; it is kept
    abstract. *)
Variable patchLayerProps : WellsLayer -> gmap string propval -> WellsLayer.

Definition same_name (log_name : string) (item : Curve) : bool :=
  String.eqb (toLowerCase (name item)) (toLowerCase log_name).

(** [d?.curves?.findIndex(...)]: [undefined] when [d] or [d.curves] is. *)
Definition getLogIDByName (d : option LogCurveDataType) (log_name : string) : option Z :=
  match d with
  | None => None
  | Some d =>
      match curves d with
      | None => None
      | Some cs => Some (findIndex (same_name log_name) cs)
      end
  end.

(** [d?.curves[log_id]]: [undefined] when [d] is; reading an index of a
    missing [curves] throws. *)
Definition curve_at (d : option LogCurveDataType) (log_id : option Z)
    : result (option Curve) :=
  match d with
  | None => Ok None
  | Some d =>
      let* cs := defined (curves d) in
      Ok (log_id ≫= at_index cs)
  end.

(** [d.data[log_id]] where the code goes on to use the row ([forEach], a
    spread, an index): a missing [d], [data] or row throws. *)
Definition row_at (d : option LogCurveDataType) (log_id : option Z)
    : result (list sample) :=
  let* d := defined d in
  let* rows := defined (data d) in
  defined (log_id ≫= at_index rows).

(** The numerator and the denominator of each division of the
    ["continuous"] branch, one pair per sample. *)
Definition quotients (row : list sample) : list (float * float) :=
  let values := map ToNumber row in
  let min := JsNumber.Math_min values in
  let max := JsNumber.Math_max values in
  let max_delta := (max - min)%float in
  map (fun value => ((value - min)%float, max_delta)) values.

(** One step of the first [forEach]: the colour of a sample is pushed
    unless d3 names none. *)
Definition continuous_color (q : float * float) : list RGBAColor :=
  match color_rgb (color_interp (fst q / snd q)%float) with
  | Some (r, g, b) => [[r; g; b]]
  | None => []
  end.

(** One step of the second [forEach]: [COLOR_MAP[value % 10]], which is
    [undefined] ([None]) outside the table. *)
Definition discrete_color (value : sample) : option RGBAColor :=
  JsNumber.array_get COLOR_MAP (JsNumber.rem (ToNumber value) 10%float).

(** [getLogColor].  An element of the result is [None] where the code pushes
    [undefined]. *)
Definition getLogColor (d : option LogCurveDataType) (log_name : string)
    : result (list (option RGBAColor)) :=
  let log_id := getLogIDByName d log_name in
  if negb (truthy_id log_id) then Ok []
  else
    let* curve := curve_at d log_id in
    match curve with
    | None => Ok []
    | Some curve =>
        let* row := row_at d log_id in
        if String.eqb (description curve) "continuous"
        then Ok (map Some (flat_map continuous_color (quotients row)))
        else Ok (map discrete_color row)
    end.

Definition to_width (row : option (list sample)) : width :=
  match row with
  | Some row => WRow row
  | None => WUndefined
  end.

(** [getLogWidth]: [log_id ? d?.data[log_id] : null]. *)
Definition getLogWidth (d : option LogCurveDataType) (log_name : string) : result width :=
  let log_id := getLogIDByName d log_name in
  if truthy_id log_id
  then
    match d with
    | None => Ok WUndefined
    | Some d =>
        let* rows := defined (data d) in
        Ok (to_width (log_id ≫= at_index rows))
    end
  else Ok WNull.

(** The body of [WellsLayer.getPickingInfo] for a [this.props.logName] that
    is the string [log_name], as the interface declares it;
    [layer_getPickingInfo] below reads the prop from the layer and covers a
    value that is no string. *)
Definition getPickingInfo (log_name : string) (i : PickInfo) : result WellsPickInfo :=
  match object i with
  | None => Ok (unchanged i)
  | Some o =>
      match data o with
      | None => Ok (unchanged i)
      | Some rows =>
          let* trajectory := defined (rows !! 0%nat) in
          let* nearest := nearest_vertex trajectory (coordinate i) in
          let vertex_index := fst nearest in
          let log_id := getLogIDByName (Some o) log_name in
          if negb (truthy_id log_id) then Ok (unchanged i)
          else
            let* row := defined (log_id ≫= at_index rows) in
            let value := row !! vertex_index in
            let* cs := defined (curves o) in
            let* curve := defined (log_id ≫= at_index cs) in
            Ok {| info := i;
                  propertyValue := Some value;
                  logName := Some (name curve) |}
      end
  end.

(** [WellsLayer.onClick]: the returned flag and the layer afterwards. *)
Definition onClick (layer : WellsLayer) (i : WellsPickInfo) : bool * WellsLayer :=
  if negb (truthy (prop (props layer) "selectionEnabled"))
  then (false, layer)
  else
    (true,
     patchLayerProps layer
       (<["selectedFeature" := of_object (object (info i))]> (props layer))).

End Wells.

(** ** Two more renderings of the scan

    The loop of [getPickingInfo] over the squared distances alone, which the
    proofs reason on, and as a transition system on its three variables. *)

(** The loop over the list of squared distances. *)
Fixpoint scan (ds : list float) (i vertex_index : nat) (min_d : float) : nat * float :=
  match ds with
  | [] => (vertex_index, min_d)
  | d :: rest =>
      if JsNumber.gt d min_d
      then scan rest (S i) vertex_index min_d
      else scan rest (S i) i d
  end.

(** The state of the [for] loop, one transition per iteration. *)
Record loop_state : Type := {
  loop_i : nat;
  loop_vertex_index : nat;
  loop_min_d : float;
}.

(** [let min_d = Number.MAX_VALUE; let vertex_index = 0; let i = 0]. *)
Definition loop_start : loop_state :=
  {| loop_i := 0; loop_vertex_index := 0; loop_min_d := JsNumber.MAX_VALUE |}.

Inductive loop_step (trajectory : list sample) (c : list float)
    : loop_state -> loop_state -> Prop :=
| step_continue (s : loop_state) (a : sample) :
    trajectory !! loop_i s = Some a ->
    JsNumber.gt (squared_distance a c) (loop_min_d s) = true ->
    loop_step trajectory c s
      {| loop_i := S (loop_i s);
         loop_vertex_index := loop_vertex_index s;
         loop_min_d := loop_min_d s |}
| step_take (s : loop_state) (a : sample) :
    trajectory !! loop_i s = Some a ->
    JsNumber.gt (squared_distance a c) (loop_min_d s) = false ->
    loop_step trajectory c s
      {| loop_i := S (loop_i s);
         loop_vertex_index := loop_i s;
         loop_min_d := squared_distance a c |}.

(** A run to the exit of the loop, where [i < trajectory.length] fails. *)
Inductive loop_run (trajectory : list sample) (c : list float)
    : loop_state -> loop_state -> Prop :=
| run_exit (s : loop_state) :
    (length trajectory <= loop_i s)%nat ->
    loop_run trajectory c s s
| run_iterate (s s' s'' : loop_state) :
    loop_step trajectory c s s' ->
    loop_run trajectory c s' s'' ->
    loop_run trajectory c s s''.

(** ** Auxiliary notions and instances *)

(** [i] is the first index of [l] whose element satisfies [p]. *)
Definition first_match {A} (p : A -> bool) (l : list A) (i : nat) : Prop :=
  (exists x, l !! i = Some x /\ p x = true)
  /\ Forall (fun y => p y = false) (take i l).

(** The instances the examples run with: [toLowerCase] on ASCII strings,
    and a two-colour stand-in for the d3 colour ramp. *)

Definition lower_char (c : Ascii.ascii) : Ascii.ascii :=
  let n := Ascii.nat_of_ascii c in
  if (65 <=? n)%nat && (n <=? 90)%nat then Ascii.ascii_of_nat (n + 32) else c.

Fixpoint lower_ascii (s : string) : string :=
  match s with
  | EmptyString => EmptyString
  | String c rest => String (lower_char c) (lower_ascii rest)
  end.

Definition two_color_interp (t : float) : string :=
  if (t <=? 0.5)%float then "red" else "blue".

Definition named_rgb (s : string) : option (float * float * float) :=
  if String.eqb s "red" then Some (255, 0, 0)%float
  else if String.eqb s "blue" then Some (0, 0, 255)%float
  else None.

(** A well with its trajectory in row [0], a continuous log in row [1] and
    a discrete log in row [2]. *)
Definition example_well : LogCurveDataType :=
  {| header_name := "15/9-F-4";
     curves := Some [ {| name := "MD"; description := "continuous" |};
                      {| name := "GR"; description := "continuous" |};
                      {| name := "Facies"; description := "discrete" |} ];
     data := Some [ [Pt [0; 0]; Pt [3; 4]; Pt [6; 8]];
                    [Num 5; Num 5; Num 5];
                    [Num 1; Num 9; Num 3] ]%float |}.

Definition example_pick : PickInfo :=
  {| object := Some example_well;
     coordinate := Some [3; 3]%float;
     index := 0;
     x := 120%float;
     y := 80%float |}.

(** A [patchLayerProps] that merges the patch into the props. *)
Definition merge_patch (layer : WellsLayer) (patch : gmap string propval) : WellsLayer :=
  {| props := patch ∪ props layer |}.

Definition example_layer : WellsLayer :=
  {| props := <["selectionEnabled" := VBool true]>
                (<["logName" := VString "GR"]>
                   (<["logRadius" := VNumber 6]> ∅)) |}.

(** ** The sublayers of [renderLayers] *)

(** [arr.splice(start, deleteCount, ...items)]: the array afterwards.  A
    [start] past the end appends, a [deleteCount] past the end deletes to the
    end. *)
Definition splice {A} (l : list A) (start deleteCount : nat) (items : list A) : list A :=
  take start l ++ items ++ drop (start + deleteCount) l.

(** The accessor [(d: Feature) => d?.properties?.color] of the GeoJSON
    sublayers.  GeoJSON features are not looked into here, so the accessor
    is a name. *)
Inductive feature_accessor : Type := getColor.

(** The props object handed to [getSubLayerProps] for a [GeoJsonLayer].  An
    accessor the object does not set is [None]. *)
Module GeoJsonLayer.
Record props : Type := {
  id : string;
  data : propval;
  pickable : bool;
  stroked : bool;
  pointRadiusUnits : string;
  lineWidthUnits : string;
  pointRadiusScale : propval;
  lineWidthScale : propval;
  getFillColor : option feature_accessor;
  getLineColor : option feature_accessor;
}.
End GeoJsonLayer.

(** What the [getWidth] accessor returns: the value of [logRadius], or
    what [getLogWidth] returns. *)
Inductive path_width : Type :=
| Radius (v : propval)
| LogWidth (w : width).

(** The props object handed to [getSubLayerProps] for the [PathLayer]. *)
Module PathLayer.
Record props : Type := {
  id : string;
  data : propval;
  pickable : bool;
  widthScale : float;
  widthMinPixels : float;
  miterLimit : float;
  getPath : LogCurveDataType -> result (option (list sample));
  getColor : LogCurveDataType -> result (list (option RGBAColor));
  getWidth : LogCurveDataType -> result path_width;
  updateTriggers_getColor : list propval;
  updateTriggers_getWidth : list propval;
}.
End PathLayer.

Inductive SubLayer : Type :=
| GeoJson (p : GeoJsonLayer.props)
| Path (p : PathLayer.props).

Definition layer_id (l : SubLayer) : string :=
  match l with
  | GeoJson p => GeoJsonLayer.id p
  | Path p => PathLayer.id p
  end.

Definition layer_data (l : SubLayer) : propval :=
  match l with
  | GeoJson p => GeoJsonLayer.data p
  | Path p => PathLayer.data p
  end.

Definition layer_pickable (l : SubLayer) : bool :=
  match l with
  | GeoJson p => GeoJsonLayer.pickable p
  | Path p => PathLayer.pickable p
  end.

Section RenderLayers.

Variable toLowerCase : string -> string.
Variable color_interp : float -> string.
Variable color_rgb : string -> option (float * float * float).

(** The number a string stands for in arithmetic (the built-in conversion
    of strings to numbers). *)
Variable StringToNumber : string -> float.

(** The number a prop value stands for in arithmetic. *)
Definition prop_number (v : propval) : float :=
  match v with
  | VUndefined => nan
  | VBool b => if b then 1%float else 0%float
  | VNumber x => x
  | VString s => StringToNumber s
  | VObject _ => nan
  end.

(** [v - 1]: always a number. *)
Definition minus_one (v : propval) : propval :=
  VNumber (prop_number v - 1)%float.

(** [v + 2]: a string is concatenated with the digit, and so is the string
    an object turns into; every other value is added as a number. *)
Definition plus_two (v : propval) : propval :=
  match v with
  | VString s => VString (s ++ "2")
  | VObject _ => VString "[object Object]2"
  | _ => VNumber (prop_number v + 2)%float
  end.

(** A call [f(d, log_name)] of one of the log functions where [log_name] is
    a prop value.  The functions read [log_name.toLowerCase()] once per
    curve: on a value that is no string this throws at the first curve, and
    with no curve the name is never looked at. *)
Definition with_log_name {A} (log_name : propval) (d : LogCurveDataType)
    (f : string -> result A) : result A :=
  match log_name with
  | VString s => f s
  | _ =>
      match curves d with
      | Some (_ :: _) => Throw TypeError
      | _ => f EmptyString
      end
  end.

Definition outline_layer (props : gmap string propval) : SubLayer :=
  GeoJson {|
    GeoJsonLayer.id := "outline";
    GeoJsonLayer.data := prop props "data";
    GeoJsonLayer.pickable := false;
    GeoJsonLayer.stroked := false;
    GeoJsonLayer.pointRadiusUnits := "pixels";
    GeoJsonLayer.lineWidthUnits := "pixels";
    GeoJsonLayer.pointRadiusScale := prop props "pointRadiusScale";
    GeoJsonLayer.lineWidthScale := prop props "lineWidthScale";
    GeoJsonLayer.getFillColor := None;
    GeoJsonLayer.getLineColor := None;
  |}.

Definition colors_layer (props : gmap string propval) : SubLayer :=
  GeoJson {|
    GeoJsonLayer.id := "colors";
    GeoJsonLayer.data := prop props "data";
    GeoJsonLayer.pickable := true;
    GeoJsonLayer.stroked := false;
    GeoJsonLayer.pointRadiusUnits := "pixels";
    GeoJsonLayer.lineWidthUnits := "pixels";
    GeoJsonLayer.pointRadiusScale := minus_one (prop props "pointRadiusScale");
    GeoJsonLayer.lineWidthScale := minus_one (prop props "lineWidthScale");
    GeoJsonLayer.getFillColor := Some getColor;
    GeoJsonLayer.getLineColor := Some getColor;
  |}.

(** Highlight the selected well. *)
Definition highlight_layer (props : gmap string propval) : SubLayer :=
  GeoJson {|
    GeoJsonLayer.id := "highlight";
    GeoJsonLayer.data := prop props "selectedFeature";
    GeoJsonLayer.pickable := false;
    GeoJsonLayer.stroked := false;
    GeoJsonLayer.pointRadiusUnits := "pixels";
    GeoJsonLayer.lineWidthUnits := "pixels";
    GeoJsonLayer.pointRadiusScale := plus_two (prop props "pointRadiusScale");
    GeoJsonLayer.lineWidthScale := plus_two (prop props "lineWidthScale");
    GeoJsonLayer.getFillColor := Some getColor;
    GeoJsonLayer.getLineColor := Some getColor;
  |}.

(** [(d) => d.data[0]]. *)
Definition getPath (d : LogCurveDataType) : result (option (list sample)) :=
  let* rows := defined (data d) in
  Ok (rows !! 0%nat).

(** [(d) => this.props.logRadius || getLogWidth(d, this.props.logName)]. *)
Definition getWidth (props : gmap string propval) (d : LogCurveDataType)
    : result path_width :=
  if truthy (prop props "logRadius")
  then Ok (Radius (prop props "logRadius"))
  else
    let* w := with_log_name (prop props "logName") d
                (getLogWidth toLowerCase (Some d)) in
    Ok (LogWidth w).

Definition log_layer (props : gmap string propval) : SubLayer :=
  Path {|
    PathLayer.id := "log_curve";
    PathLayer.data := prop props "logData";
    PathLayer.pickable := true;
    PathLayer.widthScale := 10;
    PathLayer.widthMinPixels := 1;
    PathLayer.miterLimit := 100;
    PathLayer.getPath := getPath;
    PathLayer.getColor := fun d =>
      with_log_name (prop props "logName") d
        (getLogColor toLowerCase color_interp color_rgb (Some d));
    PathLayer.getWidth := getWidth props;
    PathLayer.updateTriggers_getColor := [prop props "logName"];
    PathLayer.updateTriggers_getWidth :=
      [prop props "logName"; prop props "logRadius"];
  |}.

(** [WellsLayer.renderLayers]: each sublayer stands for the props object the
    code hands to [getSubLayerProps]. *)
Definition renderLayers (props : gmap string propval) : list SubLayer :=
  let outline := outline_layer props in
  let colors := colors_layer props in
  let highlight := highlight_layer props in
  let log_layer := log_layer props in
  let layers := [colors; highlight] in
  let layers :=
    if truthy (prop props "outline") then splice layers 0 0 [outline] else layers in
  let layers :=
    if truthy (prop props "logCurves") then splice layers 1 0 [log_layer] else layers in
  layers.

End RenderLayers.

(** The props of a sublayer that is a [PathLayer]. *)
Definition path_props (l : SubLayer) : option PathLayer.props :=
  match l with
  | Path p => Some p
  | GeoJson _ => None
  end.

Section LayerPick.

Variable toLowerCase : string -> string.

(** [WellsLayer.getPickingInfo] on the layer [this]: [this.props.logName] is
    read from the props, and is first looked at in [getLogIDByName], after
    the trajectory was read and scanned. *)
Definition layer_getPickingInfo (layer : WellsLayer) (i : PickInfo)
    : result WellsPickInfo :=
  match object i with
  | None => Ok (unchanged i)
  | Some o =>
      match data o with
      | None => Ok (unchanged i)
      | Some rows =>
          let* trajectory := defined (rows !! 0%nat) in
          let* nearest := nearest_vertex trajectory (coordinate i) in
          with_log_name (prop (props layer) "logName") o
            (fun log_name => getPickingInfo toLowerCase log_name i)
      end
  end.

End LayerPick.

(** A layer built with no prop at all, and two layers with the same
    [logName] and [logRadius] that differ in their other props. *)
Definition example_bare_layer : WellsLayer := {| props := ∅ |}.

Definition example_log_layer : WellsLayer :=
  {| props := <["logName" := VString "GR"]> (<["logRadius" := VNumber 0]> ∅) |}.

Definition example_busy_layer : WellsLayer :=
  {| props := <["logName" := VString "GR"]>
                (<["logRadius" := VNumber 0]>
                   (<["outline" := VBool true]>
                      (<["selectionEnabled" := VBool false]>
                         (<["selectedFeature" := VObject example_well]> ∅)))) |}.

(** A well whose [curves] name three logs while [data] has two rows. *)
Definition example_short_well : LogCurveDataType :=
  {| header_name := "15/9-F-5";
     curves := Some [ {| name := "MD"; description := "continuous" |};
                      {| name := "GR"; description := "continuous" |};
                      {| name := "Facies"; description := "discrete" |} ];
     data := Some [ [Pt [0; 0]; Pt [3; 4]]; [Num 5; Num 7] ]%float |}.

(** The curves and the rows of [example_well]. *)
Definition example_curves : list Curve :=
  [ {| name := "MD"; description := "continuous" |};
    {| name := "GR"; description := "continuous" |};
    {| name := "Facies"; description := "discrete" |} ].

Definition example_rows : list (list sample) :=
  [ [Pt [0; 0]; Pt [3; 4]; Pt [6; 8]];
    [Num 5; Num 5; Num 5];
    [Num 1; Num 9; Num 3] ]%float.

(** A stand-in for the conversion of strings to numbers: no string is a
    number. *)
Definition no_number (s : string) : float := nan.

(** ** The filter menu

    [WellCompletions/components/Settings/FilterMenu.tsx]: a button that opens
    a menu anchored to it.  The component's state is [anchorEl]. *)

Module FilterMenu.

Section Menu.

(** The DOM elements; every one is truthy. *)
Variable HTMLElement : Type.

(** [useState<null | HTMLElement>(null)]. *)
Definition initial : option HTMLElement := None.

(** [handleClick]: [setAnchorEl(event.currentTarget)]. *)
Definition handleClick (currentTarget : HTMLElement) (anchorEl : option HTMLElement)
    : option HTMLElement :=
  Some currentTarget.

(** [handleClose]: [setAnchorEl(null)]. *)
Definition handleClose (anchorEl : option HTMLElement) : option HTMLElement :=
  None.

(** The children of the menu. *)
Inductive item : Type :=
| HideZeroCompletionsSwitch
| ZoneSelector
| WellFilter.

(** The props of the [Menu] the component renders. *)
Record Menu : Type := {
  id : string;
  anchorEl : option HTMLElement;
  keepMounted : bool;
  open : bool;
  children : list item;
}.

(** [Boolean(anchorEl)]. *)
Definition Boolean (anchorEl : option HTMLElement) : bool :=
  match anchorEl with
  | Some _ => true
  | None => false
  end.

Definition render (state : option HTMLElement) : Menu :=
  {| id := "simple-menu";
     anchorEl := state;
     keepMounted := true;
     open := Boolean state;
     children := [HideZeroCompletionsSwitch; ZoneSelector; WellFilter] |}.

(** What happens to the component: a click on the button, or a request of
    the menu to close. *)
Inductive event : Type :=
| onClick (currentTarget : HTMLElement)
| onClose.

Definition handle (state : option HTMLElement) (e : event) : option HTMLElement :=
  match e with
  | onClick currentTarget => handleClick currentTarget state
  | onClose => handleClose state
  end.

(** The state after a sequence of events, from the initial state. *)
Definition run (events : list event) : option HTMLElement :=
  fold_left handle events initial.

End Menu.

End FilterMenu.

(** The sign of a binary64 value, as its specification gives it: [x] is
    [NaN] or carries the sign [s]. *)
Definition signed_as (s : bool) (x : spec_float) : Prop :=
  match x with
  | S754_zero s' | S754_infinity s' | S754_finite s' _ _ => s' = s
  | S754_nan => True
  end.

(** ** Proof automation for the comparison of binary64 values *)

Ltac order_cases :=
  repeat match goal with
  | |- context [(?a ?= ?b)%Z] => destruct (Z.compare_spec a b)
  | H : context [(?a ?= ?b)%Z] |- _ => destruct (Z.compare_spec a b)
  | |- context [Pos.compare_cont Eq ?a ?b] =>
      change (Pos.compare_cont Eq a b) with (Pos.compare a b);
      destruct (Pos.compare_spec a b)
  | H : context [Pos.compare_cont Eq ?a ?b] |- _ =>
      change (Pos.compare_cont Eq a b) with (Pos.compare a b) in H;
      destruct (Pos.compare_spec a b)
  end.

Ltac sf_cases :=
  intros;
  repeat match goal with
  | x : spec_float |- _ => destruct x as [[]| []| | [] ? ?]
  end;
  simpl in *; try congruence; try tauto; order_cases; simpl in *;
  try congruence; try tauto; try lia.

(** ** The number model on a few values *)

Example rem_values :
  JsNumber.rem 25 10 = 5%float
  /\ JsNumber.rem 9 10 = 9%float
  /\ JsNumber.rem (-1) 10 = (-1)%float
  /\ JsNumber.rem 1.5 10 = 1.5%float
  /\ JsNumber.rem 10 3 = 1%float
  /\ JsNumber.rem (-7.5) 2 = (-1.5)%float
  /\ JsNumber.rem 7 0 = nan
  /\ JsNumber.rem infinity 10 = nan
  /\ JsNumber.rem 7 infinity = 7%float.
Proof. repeat split; reflexivity. Qed.

Example Math_min_max_values :
  JsNumber.Math_min [3; 1; 2]%float = 1%float
  /\ JsNumber.Math_max [3; 1; 2]%float = 3%float
  /\ JsNumber.Math_min [] = infinity
  /\ JsNumber.Math_max [] = neg_infinity
  /\ JsNumber.Math_min [1; nan; 0]%float = nan
  /\ JsNumber.Math_min [0; -0]%float = (-0)%float
  /\ JsNumber.Math_max [-0; 0]%float = 0%float.
Proof. repeat split; reflexivity. Qed.

Example array_get_values :
  JsNumber.array_get COLOR_MAP 8 = Some [255; 125; 125; 255]%float
  /\ JsNumber.array_get COLOR_MAP (-0) = Some [0; 0; 0; 0]%float
  /\ JsNumber.array_get COLOR_MAP 9 = None
  /\ JsNumber.array_get COLOR_MAP (-1) = None
  /\ JsNumber.array_get COLOR_MAP 1.5 = None
  /\ JsNumber.array_get COLOR_MAP nan = None.
Proof. repeat split; reflexivity. Qed.

Example squared_distance_values :
  (squared_distance (Pt [3; 4]) [0; 0] = 25
   /\ squared_distance (Pt [3; 4; 100]) [3; 3; 7] = 1
   /\ squared_distance (Pt [3]) [0; 0] = nan
   /\ squared_distance (Num 3) [0; 0] = nan)%float.
Proof. repeat split; reflexivity. Qed.

(** ** Order on numbers

    The comparisons of binary64 values, read through their specification
    [SFcompare]. *)

Module FloatOrder.

Import JsNumber.
Local Open Scope float_scope.

Lemma ltb_cmp a b : (a <? b) = true <-> cmp a b = Some Lt.
Proof.
  rewrite FloatAxioms.ltb_spec. unfold SFltb, cmp.
  destruct (SFcompare _ _) as [[]|]; split; congruence.
Qed.

Lemma leb_cmp a b : (a <=? b) = true <-> cmp a b = Some Lt \/ cmp a b = Some Eq.
Proof.
  rewrite FloatAxioms.leb_spec. unfold SFleb, cmp.
  destruct (SFcompare _ _) as [[]|]; split; intros; try tauto; try congruence;
    destruct H; congruence.
Qed.

Lemma eqb_cmp a b : (a =? b) = true <-> cmp a b = Some Eq.
Proof.
  rewrite FloatAxioms.eqb_spec. unfold SFeqb, cmp.
  destruct (SFcompare _ _) as [[]|]; split; congruence.
Qed.

Lemma is_nan_cmp a : is_nan a = false <-> cmp a a = Some Eq.
Proof.
  unfold is_nan. split; intros H.
  - apply eqb_cmp. destruct (a =? a); simpl in H; congruence.
  - apply eqb_cmp in H. rewrite H. reflexivity.
Qed.

Lemma SFcompare_defined x y :
  SFcompare x x = Some Eq -> SFcompare y y = Some Eq -> SFcompare x y <> None.
Proof. sf_cases. Qed.

Lemma SFcompare_swap x y :
  SFcompare y x = option_map CompOpp (SFcompare x y).
Proof.
  destruct x as [[]| []| | [] m1 e1], y as [[]| []| | [] m2 e2];
    simpl; try reflexivity;
    change (Pos.compare_cont Eq m2 m1) with (Pos.compare m2 m1);
    change (Pos.compare_cont Eq m1 m2) with (Pos.compare m1 m2);
    rewrite (Z.compare_antisym e1 e2), (Pos.compare_antisym m1 m2);
    destruct (e1 ?= e2)%Z; simpl; try reflexivity;
    destruct (m1 ?= m2)%positive; reflexivity.
Qed.

Lemma SFcompare_trans x y z :
  SFcompare x y = Some Lt \/ SFcompare x y = Some Eq ->
  SFcompare y z = Some Lt \/ SFcompare y z = Some Eq ->
  SFcompare x z = Some Lt \/ SFcompare x z = Some Eq.
Proof.
  intros [H1|H1] [H2|H2]; revert H1 H2; sf_cases.
Qed.

(** The order facts the nearest-vertex scan relies on. *)

Lemma leb_trans a b c : (a <=? b) = true -> (b <=? c) = true -> (a <=? c) = true.
Proof.
  rewrite !leb_cmp. unfold cmp. apply SFcompare_trans.
Qed.

Lemma ltb_leb a b : (a <? b) = true -> (a <=? b) = true.
Proof.
  rewrite ltb_cmp, leb_cmp. auto.
Qed.

Lemma leb_not_nan a b : (a <=? b) = true -> is_nan a = false /\ is_nan b = false.
Proof.
  rewrite leb_cmp, !is_nan_cmp. unfold cmp.
  generalize (Prim2SF a) (Prim2SF b).
  intros x y [H|H]; revert H; sf_cases.
Qed.

Lemma ltb_not_nan a b : (a <? b) = true -> is_nan a = false /\ is_nan b = false.
Proof.
  intros H. apply leb_not_nan, ltb_leb, H.
Qed.

Lemma nlt_leb a b :
  is_nan a = false -> is_nan b = false -> (a <? b) = false -> (b <=? a) = true.
Proof.
  rewrite !is_nan_cmp. intros Ha Hb Hlt. apply leb_cmp.
  assert (Hn : cmp a b <> Some Lt) by (rewrite <- ltb_cmp; congruence).
  unfold cmp in *.
  pose proof (SFcompare_defined _ _ Ha Hb) as Hd.
  rewrite (SFcompare_swap (Prim2SF a) (Prim2SF b)).
  destruct (SFcompare (Prim2SF a) (Prim2SF b)) as [[]|]; simpl; auto; congruence.
Qed.

Lemma leb_nlt a b : (a <=? b) = true -> (b <? a) = false.
Proof.
  rewrite leb_cmp. intros H.
  destruct (b <? a) eqn:E; [|reflexivity].
  apply ltb_cmp in E. unfold cmp in *.
  rewrite (SFcompare_swap (Prim2SF a) (Prim2SF b)) in E.
  destruct H as [H|H]; rewrite H in E; discriminate.
Qed.

Lemma leb_antisym a b : (a <=? b) = true -> (b <=? a) = true -> (a =? b) = true.
Proof.
  rewrite !leb_cmp, eqb_cmp. unfold cmp.
  rewrite (SFcompare_swap (Prim2SF a) (Prim2SF b)).
  intros [H|H] [H'|H']; rewrite H in *; simpl in *; congruence.
Qed.

Lemma leb_refl a : is_nan a = false -> (a <=? a) = true.
Proof.
  rewrite is_nan_cmp, leb_cmp. auto.
Qed.

(** Only [+Infinity] lies above [Number.MAX_VALUE]. *)

Lemma digits2_pos_bound m : (Z.pos m < 2 ^ Z.pos (digits2_pos m))%Z.
Proof.
  induction m as [m IH|m IH|]; simpl digits2_pos;
    rewrite ?Pos2Z.inj_succ, ?Z.pow_succ_r by lia; lia.
Qed.

Lemma valid_finite_bound s m e :
  SpecFloat.valid_binary prec emax (S754_finite s m e) = true ->
  (e < 971 \/ (e = 971 /\ Z.pos m <= 9007199254740991))%Z.
Proof.
  unfold SpecFloat.valid_binary, bounded, canonical_mantissa, fexp.
  change (SpecFloat.emin prec emax) with (-1074)%Z.
  change prec with 53%Z. change emax with 1024%Z.
  intros H. apply andb_prop in H as [Hc He].
  apply Z.eqb_eq in Hc. apply Z.leb_le in He.
  destruct (Z.eq_dec e 971%Z) as [->|]; [right|left; lia].
  split; [reflexivity|].
  pose proof (digits2_pos_bound m) as Hm.
  assert (Hd : (Z.pos (digits2_pos m) <= 53)%Z) by lia.
  pose proof (Z.pow_le_mono_r 2%Z _ _ ltac:(lia) Hd) as Hp.
  change (2 ^ 53)%Z with 9007199254740992%Z in Hp. lia.
Qed.

Lemma gt_MAX_VALUE d : JsNumber.gt d JsNumber.MAX_VALUE = true -> d = infinity.
Proof.
  unfold JsNumber.gt. rewrite ltb_cmp. unfold cmp.
  change (Prim2SF JsNumber.MAX_VALUE)
    with (S754_finite false 9007199254740991%positive 971%Z).
  pose proof (Prim2SF_valid d) as Hv.
  destruct (Prim2SF d) as [[]| []| | [] m e] eqn:E;
    cbv beta iota delta [SFcompare]; try discriminate.
  - intros _. apply Prim2SF_inj. rewrite E. reflexivity.
  - apply valid_finite_bound in Hv.
    change (Pos.compare_cont Eq 9007199254740991%positive m)
      with (Pos.compare 9007199254740991%positive m).
    destruct (Z.compare_spec 971%Z e) as [He|He|He]; try discriminate.
    + destruct (Pos.compare_spec 9007199254740991%positive m) as [Hm|Hm|Hm];
        try discriminate.
      intros _. exfalso. lia.
    + intros _. exfalso. lia.
Qed.

End FloatOrder.

(** ** The nearest-vertex scan *)

Section Scan.

Local Open Scope float_scope.
Import FloatOrder.

Lemma nearest_from_scan trajectory c i vi m :
  nearest_from trajectory (Some c) i vi m
  = Ok (scan (map (fun a => squared_distance a c) trajectory) i vi m).
Proof.
  revert i vi m. induction trajectory as [|a rest IH]; intros i vi m; simpl.
  - reflexivity.
  - destruct (JsNumber.gt (squared_distance a c) m); apply IH.
Qed.

(** With a pointer coordinate the loop never throws. *)
Lemma nearest_vertex_returns trajectory c :
  exists vi m, nearest_vertex trajectory (Some c) = Ok (vi, m).
Proof.
  unfold nearest_vertex. rewrite nearest_from_scan.
  destruct (scan _ 0 0 JsNumber.MAX_VALUE) as [vi m]. eauto.
Qed.

(** Without one it throws at the first vertex. *)
Lemma nearest_vertex_no_coordinate a rest :
  nearest_vertex (a :: rest) None = Throw TypeError.
Proof. reflexivity. Qed.

(** Shape of the result: either no vertex was taken, and every distance is
    above the initial [min_d]; or the vertex at offset [k] was taken last, its
    distance is the final [min_d], and every later distance is above it. *)
Lemma scan_shape ds : forall i vi m,
  (scan ds i vi m = (vi, m)
   /\ forall k d, ds !! k = Some d -> JsNumber.gt d m = true)
  \/ (exists k,
        (scan ds i vi m).1 = (i + k)%nat
        /\ ds !! k = Some (scan ds i vi m).2
        /\ forall k' d, (k < k')%nat -> ds !! k' = Some d ->
             JsNumber.gt d (scan ds i vi m).2 = true).
Proof.
  induction ds as [|d rest IH]; intros i vi m; simpl.
  - left. split; [reflexivity|]. intros k d H. discriminate.
  - destruct (JsNumber.gt d m) eqn:Hgt.
    + destruct (IH (S i) vi m) as [[Heq Hall]|(k & Hk & Hd & Hlater)].
      * left. split; [exact Heq|].
        intros [|k] d' H; simpl in H; [congruence|eauto].
      * right. exists (S k). split; [lia|]. split; [exact Hd|].
        intros [|k'] d' Hlt H; [lia|]. simpl in H. apply (Hlater k'); [lia|exact H].
    + destruct (IH (S i) i d) as [[Heq Hall]|(k & Hk & Hd & Hlater)].
      * right. exists 0%nat. rewrite Heq. simpl.
        split; [lia|]. split; [reflexivity|].
        intros [|k'] d' Hlt H; [lia|]. simpl in H. eauto.
      * right. exists (S k). split; [lia|]. split; [exact Hd|].
        intros [|k'] d' Hlt H; [lia|]. simpl in H. apply (Hlater k'); [lia|exact H].
Qed.

(** When no distance is [NaN], the final [min_d] is below the initial one
    and below every distance. *)
Lemma scan_lower_bound ds : forall i vi m,
  is_nan m = false ->
  Forall (fun d => is_nan d = false) ds ->
  ((scan ds i vi m).2 <=? m) = true
  /\ Forall (fun d => ((scan ds i vi m).2 <=? d) = true) ds.
Proof.
  induction ds as [|d rest IH]; intros i vi m Hm Hds; simpl.
  - split; [apply leb_refl, Hm|constructor].
  - apply Forall_cons in Hds as [Hd Hrest].
    destruct (JsNumber.gt d m) eqn:Hgt.
    + destruct (IH (S i) vi m Hm Hrest) as [Hle Hall].
      split; [exact Hle|]. constructor; [|exact Hall].
      eapply leb_trans; [exact Hle|]. apply ltb_leb, Hgt.
    + destruct (IH (S i) i d Hd Hrest) as [Hle Hall].
      split; [|constructor; assumption].
      eapply leb_trans; [exact Hle|]. apply nlt_leb; assumption.
Qed.

Lemma lookup_map {A B} (f : A -> B) (l : list A) (i : nat) :
  map f l !! i = f <$> (l !! i).
Proof.
  revert i. induction l as [|a l IH]; intros [|i]; simpl; auto.
Qed.

Lemma lookup_distance trajectory c i d :
  map (fun a => squared_distance a c) trajectory !! i = Some d ->
  exists a, trajectory !! i = Some a /\ squared_distance a c = d.
Proof.
  rewrite lookup_map. destruct (trajectory !! i) as [a|]; simpl; [|discriminate].
  intros [= <-]. eauto.
Qed.

(** C1, amended: for a non-empty trajectory none of whose squared
    distances to the pointer coordinate is [NaN], the loop of
    [getPickingInfo] returns, and the vertex at the [vertex_index] it
    computes is at a squared distance below or equal to that of every vertex
    of the trajectory. *)
Theorem nearest_vertex_minimal (trajectory : list sample) (c : list float) :
  trajectory <> [] ->
  Forall (fun a => is_nan (squared_distance a c) = false) trajectory ->
  exists vertex_index min_d av,
    nearest_vertex trajectory (Some c) = Ok (vertex_index, min_d)
    /\ trajectory !! vertex_index = Some av
    /\ forall i ai, trajectory !! i = Some ai ->
         (squared_distance av c <=? squared_distance ai c) = true.
Proof.
  intros Hne Hnan. unfold nearest_vertex. rewrite nearest_from_scan.
  set (ds := map (fun a => squared_distance a c) trajectory).
  destruct (scan_shape ds 0 0 JsNumber.MAX_VALUE)
    as [[Heq Hall]|(k & Hk & Hd & _)].
  - destruct trajectory as [|a0 rest]; [congruence|].
    exists 0%nat, JsNumber.MAX_VALUE, a0.
    split; [rewrite Heq; reflexivity|]. split; [reflexivity|].
    intros i ai Hi.
    assert (Hinf : forall j aj, (a0 :: rest) !! j = Some aj ->
                     squared_distance aj c = infinity).
    { intros j aj Hj. apply gt_MAX_VALUE, (Hall j).
      unfold ds. rewrite lookup_map, Hj. reflexivity. }
    rewrite (Hinf 0%nat a0 eq_refl), (Hinf i ai Hi). reflexivity.
  - destruct (lookup_distance _ _ _ _ Hd) as (av & Hav & Hdist).
    destruct (scan ds 0 0 JsNumber.MAX_VALUE) as [vi m] eqn:Hscan.
    simpl in *. subst vi. exists k, m, av.
    split; [reflexivity|]. split; [exact Hav|].
    intros i ai Hi. rewrite Hdist.
    assert (Hds : Forall (fun d => is_nan d = false) ds).
    { unfold ds. apply Forall_map. exact Hnan. }
    destruct (scan_lower_bound ds 0 0 JsNumber.MAX_VALUE eq_refl Hds) as [_ Hall].
    rewrite Hscan in Hall. simpl in Hall.
    rewrite Forall_lookup in Hall. apply (Hall i).
    unfold ds. rewrite lookup_map, Hi. reflexivity.
Qed.

Lemma nearest_vertex_minimal_witness :
  exists vertex_index min_d av,
    nearest_vertex [Pt [3; 4]; Pt [1; 2]; Pt [7; 1]] (Some [1; 1])
    = Ok (vertex_index, min_d)
    /\ [Pt [3; 4]; Pt [1; 2]; Pt [7; 1]] !! vertex_index = Some av
    /\ forall i ai, [Pt [3; 4]; Pt [1; 2]; Pt [7; 1]] !! i = Some ai ->
         (squared_distance av [1; 1] <=? squared_distance ai [1; 1]) = true.
Proof.
  apply nearest_vertex_minimal.
  - discriminate.
  - repeat constructor.
Defined.

(** C1 as stated fails on a vertex whose distance is [NaN]: the scan ends on
    that vertex, index [1], although vertex [0] lies on the pointer. *)
Lemma nearest_vertex_nan_not_minimal :
  nearest_vertex [Pt [0; 0]; Pt [nan; 0]] (Some [0; 0]) = Ok (1%nat, nan)
  /\ (squared_distance (Pt [nan; 0]) [0; 0]
      <=? squared_distance (Pt [0; 0]) [0; 0]) = false.
Proof. split; reflexivity. Qed.

(** C2, amended: last result wins.  When the vertex at index [j] attains the
    minimal squared distance and that distance is at most
    [Number.MAX_VALUE], the [vertex_index] returned attains the minimum too
    and is at least [j]: it is the largest index that attains it. *)
Theorem nearest_vertex_last_minimum (trajectory : list sample) (c : list float)
    (j : nat) (aj : sample) :
  trajectory !! j = Some aj ->
  Forall (fun ai => (squared_distance aj c <=? squared_distance ai c) = true)
    trajectory ->
  (squared_distance aj c <=? JsNumber.MAX_VALUE) = true ->
  exists vertex_index min_d av,
    nearest_vertex trajectory (Some c) = Ok (vertex_index, min_d)
    /\ trajectory !! vertex_index = Some av
    /\ (squared_distance av c =? squared_distance aj c) = true
    /\ (j <= vertex_index)%nat.
Proof.
  intros Hj Hmin Hfin. unfold nearest_vertex. rewrite nearest_from_scan.
  set (ds := map (fun a => squared_distance a c) trajectory).
  assert (Hdj : ds !! j = Some (squared_distance aj c)).
  { unfold ds. rewrite lookup_map, Hj. reflexivity. }
  destruct (scan_shape ds 0 0 JsNumber.MAX_VALUE)
    as [[_ Hall]|(k & Hk & Hd & Hlater)].
  - apply Hall in Hdj. apply leb_nlt in Hfin.
    unfold JsNumber.gt in Hdj. congruence.
  - destruct (lookup_distance _ _ _ _ Hd) as (av & Hav & Hdist).
    destruct (scan ds 0 0 JsNumber.MAX_VALUE) as [vi m] eqn:Hscan.
    simpl in *. subst vi. exists k, m, av.
    split; [reflexivity|]. split; [exact Hav|].
    assert (Hjk : (squared_distance aj c <=? m) = true).
    { rewrite <- Hdist. rewrite Forall_lookup in Hmin. apply (Hmin k), Hav. }
    split.
    + rewrite Hdist. apply leb_antisym; [|exact Hjk].
      assert (Hds : Forall (fun d => is_nan d = false) ds).
      { unfold ds. apply Forall_map.
        eapply Forall_impl; [exact Hmin|]. intros a Ha. apply (leb_not_nan _ _ Ha). }
      destruct (scan_lower_bound ds 0 0 JsNumber.MAX_VALUE eq_refl Hds) as [_ Hall].
      rewrite Hscan in Hall. simpl in Hall.
      rewrite Forall_lookup in Hall. apply (Hall j), Hdj.
    + destruct (le_lt_dec j k) as [Hle|Hlt]; [exact Hle|].
      apply (Hlater j _ Hlt) in Hdj. apply leb_nlt in Hjk.
      unfold JsNumber.gt in Hdj. congruence.
Qed.

Lemma nearest_vertex_last_minimum_witness :
  exists vertex_index min_d av,
    nearest_vertex [Pt [3; 4]; Pt [1; 2]; Pt [7; 1]; Pt [1; 0]] (Some [1; 1])
    = Ok (vertex_index, min_d)
    /\ [Pt [3; 4]; Pt [1; 2]; Pt [7; 1]; Pt [1; 0]] !! vertex_index = Some av
    /\ (squared_distance av [1; 1] =? squared_distance (Pt [1; 2]) [1; 1]) = true
    /\ (1 <= vertex_index)%nat.
Proof.
  apply (nearest_vertex_last_minimum _ _ 1%nat).
  - reflexivity.
  - repeat constructor.
  - reflexivity.
Defined.

(** C2 as stated fails on a tie: both vertices lie on the pointer, the
    smallest index at the minimal distance is [0], and the scan returns [1]. *)
Lemma nearest_vertex_tie_takes_last :
  nearest_vertex [Pt [0; 0]; Pt [0; 0]] (Some [0; 0]) = Ok (1%nat, 0)
  /\ squared_distance (Pt [0; 0]) [0; 0] = 0.
Proof. split; reflexivity. Qed.

End Scan.

(** ** Log lookup, colours and widths *)

Lemma at_index_of_nat {A} (l : list A) (i : nat) : at_index l (Z.of_nat i) = l !! i.
Proof.
  unfold at_index. destruct (Z.ltb_spec (Z.of_nat i) 0); [lia|].
  rewrite Nat2Z.id. reflexivity.
Qed.

Lemma at_index_negative {A} (l : list A) (z : Z) : z < 0 -> at_index l z = None.
Proof.
  unfold at_index. destruct (Z.ltb_spec z 0); [reflexivity|lia].
Qed.

Lemma findIndex_from_none {A} (p : A -> bool) (l : list A) (z : Z) :
  Forall (fun y => p y = false) l -> findIndex_from p l z = -1.
Proof.
  intros H. revert z. induction H as [|x l Hx _ IH]; intros z; simpl.
  - reflexivity.
  - rewrite Hx. apply IH.
Qed.

Lemma findIndex_from_first {A} (p : A -> bool) (l : list A) :
  forall i z, first_match p l i -> findIndex_from p l z = z + Z.of_nat i.
Proof.
  induction l as [|x l IH]; intros i z [(y & Hy & Hp) Hbefore].
  - destruct i; discriminate.
  - destruct i as [|i]; simpl in *.
    + injection Hy as ->. rewrite Hp. lia.
    + apply Forall_cons in Hbefore as [Hx Hbefore]. rewrite Hx.
      rewrite (IH i (z + 1)); [lia|]. split; eauto.
Qed.

Lemma findIndex_first {A} (p : A -> bool) (l : list A) (i : nat) :
  first_match p l i -> findIndex p l = Z.of_nat i.
Proof.
  intros H. unfold findIndex. rewrite (findIndex_from_first p l i 0 H). lia.
Qed.

(** [findIndex] yields [-1] or an index of the array. *)
Lemma findIndex_from_range {A} (p : A -> bool) (l : list A) (z : Z) :
  findIndex_from p l z = -1
  \/ (z <= findIndex_from p l z < z + Z.of_nat (length l)).
Proof.
  revert z. induction l as [|x l IH]; intros z; simpl; [auto|].
  destruct (p x); [right; lia|].
  destruct (IH (z + 1)) as [->|H]; [auto|right; lia].
Qed.

Section WellsFacts.

Variable toLowerCase : string -> string.
Variable color_interp : float -> string.
Variable color_rgb : string -> option (float * float * float).

Local Abbreviation same_name := (same_name toLowerCase).
Local Abbreviation getLogIDByName := (getLogIDByName toLowerCase).
Local Abbreviation getLogColor := (getLogColor toLowerCase color_interp color_rgb).
Local Abbreviation getLogWidth := (getLogWidth toLowerCase).
Local Abbreviation getPickingInfo := (getPickingInfo toLowerCase).

Lemma getLogIDByName_none (d : LogCurveDataType) (cs : list Curve) (log_name : string) :
  curves d = Some cs ->
  Forall (fun item => same_name log_name item = false) cs ->
  getLogIDByName (Some d) log_name = Some (-1).
Proof.
  intros Hcs Hnone. unfold getLogIDByName, findIndex. rewrite Hcs.
  rewrite findIndex_from_none by exact Hnone. reflexivity.
Qed.

Lemma getLogIDByName_first (d : LogCurveDataType) (cs : list Curve)
    (log_name : string) (i : nat) :
  curves d = Some cs ->
  first_match (same_name log_name) cs i ->
  getLogIDByName (Some d) log_name = Some (Z.of_nat i).
Proof.
  intros Hcs Hi. unfold getLogIDByName. rewrite Hcs.
  rewrite (findIndex_first _ _ _ Hi). reflexivity.
Qed.

(** C3: when no entry of [d.curves] has the name [log_name] up to case
    ([d] or [d.curves] may also be missing), [getLogColor] returns the empty
    array. *)
Theorem getLogColor_missing_name (d : option LogCurveDataType) (log_name : string) :
  (forall cs, d ≫= curves = Some cs ->
     Forall (fun item => same_name log_name item = false) cs) ->
  getLogColor d log_name = Ok [].
Proof.
  intros Hnone. unfold getLogColor.
  destruct d as [d|]; [|reflexivity].
  destruct (curves d) as [cs|] eqn:Hcs.
  - rewrite (getLogIDByName_none d cs log_name Hcs (Hnone cs Hcs)).
    simpl. rewrite Hcs. simpl. reflexivity.
  - unfold getLogIDByName. rewrite Hcs. reflexivity.
Qed.

Lemma continuous_color_length (q : float * float) :
  color_rgb (color_interp (fst q / snd q)%float) <> None ->
  length (continuous_color color_interp color_rgb q) = 1%nat.
Proof.
  unfold continuous_color.
  destruct (color_rgb _) as [[[r g] b]|]; [reflexivity|congruence].
Qed.

Lemma quotients_length (row : list sample) : length (quotients row) = length row.
Proof.
  unfold quotients. rewrite !length_map. reflexivity.
Qed.

Lemma continuous_colors_length (qs : list (float * float)) :
  (forall t, color_rgb (color_interp t) <> None) ->
  length (flat_map (continuous_color color_interp color_rgb) qs) = length qs.
Proof.
  intros Hrgb. induction qs as [|q qs IH]; simpl; [reflexivity|].
  rewrite length_app, continuous_color_length, IH by apply Hrgb. reflexivity.
Qed.

(** What [getLogColor] computes for a log found at an index other than [0]. *)
Lemma getLogColor_found (d : LogCurveDataType) (log_name : string)
    (cs : list Curve) (i : nat) (curve : Curve)
    (rows : list (list sample)) (row : list sample) :
  curves d = Some cs ->
  first_match (same_name log_name) cs i ->
  i <> 0%nat ->
  cs !! i = Some curve ->
  data d = Some rows ->
  rows !! i = Some row ->
  getLogColor (Some d) log_name
  = if String.eqb (description curve) "continuous"
    then Ok (map Some (flat_map (continuous_color color_interp color_rgb) (quotients row)))
    else Ok (map discrete_color row).
Proof.
  intros Hcs Hi Hi0 Hcurve Hrows Hrow. unfold getLogColor.
  rewrite (getLogIDByName_first d cs log_name i Hcs Hi).
  assert (Ht : truthy_id (Some (Z.of_nat i)) = true).
  { simpl. destruct (Z.eqb_spec (Z.of_nat i) 0); [lia|reflexivity]. }
  rewrite Ht. unfold curve_at, row_at. simpl. rewrite Hcs, Hrows. simpl.
  rewrite !at_index_of_nat, Hcurve, Hrow. simpl. reflexivity.
Qed.

(** A log found at index [0] is treated as no log. *)
Lemma getLogColor_index_zero (d : LogCurveDataType) (log_name : string)
    (cs : list Curve) :
  curves d = Some cs ->
  first_match (same_name log_name) cs 0 ->
  getLogColor (Some d) log_name = Ok [].
Proof.
  intros Hcs Hi. unfold getLogColor.
  rewrite (getLogIDByName_first d cs log_name 0 Hcs Hi). reflexivity.
Qed.

(** C4, amended: for a log found at a first index [i] other than [0] whose
    row [d.data[i]] is present, [getLogColor] returns an array with one
    entry per sample of the row (for a ["continuous"] curve, given that d3
    names a colour for every number); found at index [0], it returns the
    empty array. *)
Theorem getLogColor_one_color_per_sample (d : LogCurveDataType) (log_name : string)
    (cs : list Curve) (i : nat) (curve : Curve)
    (rows : list (list sample)) (row : list sample) :
  curves d = Some cs ->
  first_match (same_name log_name) cs i ->
  cs !! i = Some curve ->
  data d = Some rows ->
  rows !! i = Some row ->
  (description curve = "continuous" -> forall t, color_rgb (color_interp t) <> None) ->
  exists colors,
    getLogColor (Some d) log_name = Ok colors
    /\ length colors = if Nat.eqb i 0 then 0%nat else length row.
Proof.
  intros Hcs Hi Hcurve Hrows Hrow Hrgb.
  destruct (Nat.eqb_spec i 0) as [->|Hi0].
  - exists []. split; [|reflexivity]. eapply getLogColor_index_zero; eauto.
  - rewrite (getLogColor_found d log_name cs i curve rows row) by assumption.
    destruct (String.eqb_spec (description curve) "continuous") as [Hc|Hc].
    + eexists. split; [reflexivity|].
      rewrite length_map, continuous_colors_length, quotients_length by auto.
      reflexivity.
    + eexists. split; [reflexivity|]. apply length_map.
Qed.

(** C5, amended: for a log found at a first index [i] other than [0],
    [getLogWidth] returns the row [d.data[i]]; found at index [0], it
    returns [null]. *)
Theorem getLogWidth_found (d : LogCurveDataType) (log_name : string)
    (cs : list Curve) (i : nat) (rows : list (list sample)) (row : list sample) :
  curves d = Some cs ->
  first_match (same_name log_name) cs i ->
  data d = Some rows ->
  rows !! i = Some row ->
  getLogWidth (Some d) log_name = Ok (if Nat.eqb i 0 then WNull else WRow row).
Proof.
  intros Hcs Hi Hrows Hrow. unfold getLogWidth.
  rewrite (getLogIDByName_first d cs log_name i Hcs Hi).
  destruct (Nat.eqb_spec i 0) as [->|Hi0]; [reflexivity|].
  assert (Ht : truthy_id (Some (Z.of_nat i)) = true).
  { simpl. destruct (Z.eqb_spec (Z.of_nat i) 0); [lia|reflexivity]. }
  rewrite Ht, Hrows. simpl. rewrite at_index_of_nat, Hrow. reflexivity.
Qed.

(** With no log of that name, [findIndex] yields [-1], which is truthy, and
    [getLogWidth] returns [d.data[-1]], that is [undefined]. *)
Lemma getLogWidth_no_match (d : LogCurveDataType) (log_name : string)
    (cs : list Curve) (rows : list (list sample)) :
  curves d = Some cs ->
  Forall (fun item => same_name log_name item = false) cs ->
  data d = Some rows ->
  getLogWidth (Some d) log_name = Ok WUndefined.
Proof.
  intros Hcs Hnone Hrows. unfold getLogWidth.
  rewrite (getLogIDByName_none d cs log_name Hcs Hnone). simpl.
  rewrite Hrows. reflexivity.
Qed.

(** The fallbacks of [getPickingInfo] that return [info] as it came. *)

Lemma getPickingInfo_no_object (log_name : string) (i : PickInfo) :
  object i = None -> getPickingInfo log_name i = Ok (unchanged i).
Proof.
  intros H. unfold getPickingInfo. rewrite H. reflexivity.
Qed.

Lemma getPickingInfo_no_data (log_name : string) (i : PickInfo) (o : LogCurveDataType) :
  object i = Some o -> data o = None ->
  getPickingInfo log_name i = Ok (unchanged i).
Proof.
  intros Ho Hd. unfold getPickingInfo. rewrite Ho, Hd. reflexivity.
Qed.

Lemma getPickingInfo_falsy_id (log_name : string) (i : PickInfo)
    (o : LogCurveDataType) (rows : list (list sample))
    (trajectory : list sample) (c : list float) :
  object i = Some o -> data o = Some rows -> rows !! 0%nat = Some trajectory ->
  coordinate i = Some c ->
  truthy_id (getLogIDByName (Some o) log_name) = false ->
  getPickingInfo log_name i = Ok (unchanged i).
Proof.
  intros Ho Hd Ht Hc Hid. unfold getPickingInfo. rewrite Ho, Hd, Ht, Hc.
  cbn [bind defined].
  destruct (nearest_vertex_returns trajectory c) as (vi & m & ->).
  cbn [bind defined fst]. rewrite Hid. reflexivity.
Qed.

(** With curves none of which has the name, the id is [-1]: it passes the
    [!log_id] test, and reading [data[-1][vertex_index]] throws. *)
Lemma getPickingInfo_no_match_throws (log_name : string) (i : PickInfo)
    (o : LogCurveDataType) (cs : list Curve) (rows : list (list sample))
    (trajectory : list sample) (c : list float) :
  object i = Some o -> data o = Some rows -> rows !! 0%nat = Some trajectory ->
  coordinate i = Some c ->
  curves o = Some cs ->
  Forall (fun item => same_name log_name item = false) cs ->
  getPickingInfo log_name i = Throw TypeError.
Proof.
  intros Ho Hd Ht Hc Hcs Hnone. unfold getPickingInfo.
  rewrite Ho, Hd, Ht, Hc. cbn [bind defined].
  destruct (nearest_vertex_returns trajectory c) as (vi & m & ->).
  cbn [bind defined fst].
  rewrite (getLogIDByName_none o cs log_name Hcs Hnone). reflexivity.
Qed.

(** The value reported for a log found at an index other than [0] is the
    sample of its row at the [vertex_index] of the scan. *)
Lemma getPickingInfo_found (log_name : string) (i : PickInfo)
    (o : LogCurveDataType) (cs : list Curve) (rows : list (list sample))
    (trajectory row : list sample) (c : list float) (n : nat) (curve : Curve)
    (vertex_index : nat) (min_d : float) :
  object i = Some o -> data o = Some rows -> rows !! 0%nat = Some trajectory ->
  coordinate i = Some c ->
  curves o = Some cs ->
  first_match (same_name log_name) cs n -> n <> 0%nat ->
  cs !! n = Some curve -> rows !! n = Some row ->
  nearest_vertex trajectory (Some c) = Ok (vertex_index, min_d) ->
  getPickingInfo log_name i
  = Ok {| info := i;
          propertyValue := Some (row !! vertex_index);
          logName := Some (name curve) |}.
Proof.
  intros Ho Hd Ht Hc Hcs Hn Hn0 Hcurve Hrow Hnear. unfold getPickingInfo.
  rewrite Ho, Hd, Ht, Hc. cbn [bind defined]. rewrite Hnear. cbn [bind defined fst].
  rewrite (getLogIDByName_first o cs log_name n Hcs Hn).
  assert (Htr : truthy_id (Some (Z.of_nat n)) = true).
  { simpl. destruct (Z.eqb_spec (Z.of_nat n) 0); [lia|reflexivity]. }
  rewrite Htr. cbn [negb mbind option_bind].
  rewrite at_index_of_nat, Hrow, Hcs. cbn [bind defined].
  rewrite at_index_of_nat, Hcurve. reflexivity.
Qed.

End WellsFacts.

Lemma named_rgb_two_color (t : float) : named_rgb (two_color_interp t) <> None.
Proof.
  unfold two_color_interp. destruct (t <=? 0.5)%float; discriminate.
Qed.

(** ** Arithmetic on equal finite numbers *)

Module FloatArith.

Local Open Scope float_scope.
Import FloatOrder.

Lemma sub_diag v : is_finite v = true -> v - v = 0.
Proof.
  unfold is_finite, is_nan, is_infinity. rewrite !FloatAxioms.eqb_spec, abs_spec.
  intros H. apply Prim2SF_inj. rewrite sub_spec.
  destruct (Prim2SF v) as [[]|[]| |[] m e]; try discriminate H; try reflexivity;
    unfold SF64sub, SFsub; cbv zeta; rewrite Z.sub_diag; reflexivity.
Qed.

Lemma finite_not_nan v : is_finite v = true -> is_nan v = false.
Proof.
  unfold is_finite. destruct (is_nan v); [discriminate|reflexivity].
Qed.

Lemma finite_below_infinity v : is_finite v = true -> (v <? infinity) = true.
Proof.
  unfold is_finite, is_nan, is_infinity.
  rewrite !FloatAxioms.eqb_spec, abs_spec, FloatAxioms.ltb_spec.
  change (Prim2SF infinity) with (S754_infinity false).
  destruct (Prim2SF v) as [[]|[]| |[] m e]; try discriminate; reflexivity.
Qed.

Lemma finite_above_neg_infinity v : is_finite v = true -> (neg_infinity <? v) = true.
Proof.
  unfold is_finite, is_nan, is_infinity.
  rewrite !FloatAxioms.eqb_spec, abs_spec, FloatAxioms.ltb_spec.
  change (Prim2SF infinity) with (S754_infinity false).
  change (Prim2SF neg_infinity) with (S754_infinity true).
  destruct (Prim2SF v) as [[]|[]| |[] m e]; try discriminate; reflexivity.
Qed.

Lemma ltb_irrefl v : (v <? v) = false.
Proof.
  destruct (v <? v) eqn:E; [|reflexivity].
  pose proof (leb_nlt _ _ (ltb_leb _ _ E)). congruence.
Qed.

Lemma zero_signs_exclusive a b :
  JsNumber.is_neg_zero a && JsNumber.is_pos_zero a = false
  /\ JsNumber.is_pos_zero b && JsNumber.is_neg_zero b = false.
Proof.
  unfold JsNumber.is_neg_zero, JsNumber.is_pos_zero.
  destruct (is_zero a), (get_sign a), (is_zero b), (get_sign b); auto.
Qed.

(** [Math.min] and [Math.max] of copies of one finite number. *)

Lemma min_from_same v l :
  is_nan v = false -> Forall (fun x => x = v) l -> JsNumber.min_from v l = v.
Proof.
  intros Hv H. induction H as [|x l -> _ IH]; simpl; [reflexivity|].
  rewrite Hv, ltb_irrefl, (proj1 (zero_signs_exclusive v v)). exact IH.
Qed.

Lemma max_from_same v l :
  is_nan v = false -> Forall (fun x => x = v) l -> JsNumber.max_from v l = v.
Proof.
  intros Hv H. induction H as [|x l -> _ IH]; simpl; [reflexivity|].
  rewrite Hv, ltb_irrefl, (proj2 (zero_signs_exclusive v v)). exact IH.
Qed.

Lemma Math_min_same v l :
  is_finite v = true -> Forall (fun x => x = v) l -> JsNumber.Math_min (v :: l) = v.
Proof.
  intros Hv H. unfold JsNumber.Math_min. simpl.
  rewrite (finite_not_nan v Hv), (finite_below_infinity v Hv), orb_true_r.
  apply min_from_same; [apply finite_not_nan, Hv|exact H].
Qed.

Lemma Math_max_same v l :
  is_finite v = true -> Forall (fun x => x = v) l -> JsNumber.Math_max (v :: l) = v.
Proof.
  intros Hv H. unfold JsNumber.Math_max. simpl.
  rewrite (finite_not_nan v Hv), (finite_above_neg_infinity v Hv), orb_true_r.
  apply max_from_same; [apply finite_not_nan, Hv|exact H].
Qed.

End FloatArith.

(** ** The normalisation of the continuous branch *)

Lemma quotients_same (v : float) (row : list sample) :
  is_finite v = true ->
  Forall (fun s => ToNumber s = v) row ->
  Forall (fun q => q = (0, 0)%float) (quotients row).
Proof.
  intros Hv Hrow. unfold quotients.
  assert (Hvalues : Forall (fun x => x = v) (map ToNumber row))
    by (apply Forall_map; exact Hrow).
  destruct (map ToNumber row) as [|x values] eqn:E; [constructor|].
  apply Forall_cons in Hvalues as Hxv. destruct Hxv as [-> Hrest].
  rewrite FloatArith.Math_min_same, FloatArith.Math_max_same by assumption.
  rewrite Forall_map. eapply Forall_impl; [exact Hvalues|].
  intros y ->. simpl. rewrite FloatArith.sub_diag by exact Hv. reflexivity.
Qed.

Section Normalisation.

Variable toLowerCase : string -> string.
Variable color_interp : float -> string.
Variable color_rgb : string -> option (float * float * float).

(** C9, amended: the normalisation is not guarded.  For a ["continuous"]
    log, found at an index other than [0], whose samples all stand for the
    same finite number, [getLogColor] returns the colours of the quotients
    [(value - min) / max_delta], and every one of these divisions has the
    denominator [max_delta = 0] and the value [NaN]. *)
Theorem getLogColor_divides_by_zero (d : LogCurveDataType) (log_name : string)
    (cs : list Curve) (i : nat) (curve : Curve)
    (rows : list (list sample)) (row : list sample) (v : float) :
  curves d = Some cs ->
  first_match (same_name toLowerCase log_name) cs i ->
  i <> 0%nat ->
  cs !! i = Some curve ->
  description curve = "continuous" ->
  data d = Some rows ->
  rows !! i = Some row ->
  is_finite v = true ->
  Forall (fun s => ToNumber s = v) row ->
  getLogColor toLowerCase color_interp color_rgb (Some d) log_name
  = Ok (map Some (flat_map (continuous_color color_interp color_rgb) (quotients row)))
  /\ Forall (fun q => snd q = 0%float /\ (fst q / snd q)%float = nan) (quotients row).
Proof.
  intros Hcs Hi Hi0 Hcurve Hdesc Hrows Hrow Hv Hsame. split.
  - rewrite (getLogColor_found toLowerCase color_interp color_rgb
               d log_name cs i curve rows row) by assumption.
    rewrite Hdesc. reflexivity.
  - eapply Forall_impl; [apply (quotients_same v row Hv Hsame)|].
    intros q ->. split; reflexivity.
Qed.

End Normalisation.

Lemma getLogColor_divides_by_zero_witness :
  getLogColor lower_ascii two_color_interp named_rgb (Some example_well) "gr"
  = Ok (map Some (flat_map (continuous_color two_color_interp named_rgb)
                    (quotients [Num 5; Num 5; Num 5])))
  /\ Forall (fun q => snd q = 0%float /\ (fst q / snd q)%float = nan)
       (quotients [Num 5; Num 5; Num 5]).
Proof.
  eapply (getLogColor_divides_by_zero lower_ascii two_color_interp named_rgb
            example_well "gr") with (i := 1%nat) (v := 5%float).
  - reflexivity.
  - split; [eexists; split; reflexivity|repeat constructor].
  - discriminate.
  - reflexivity.
  - reflexivity.
  - reflexivity.
  - reflexivity.
  - reflexivity.
  - repeat constructor.
Defined.

(** C9 as stated fails: on the log [GR] of the example, whose samples are
    all [5], every division has the denominator [0] and yields [NaN]. *)
Lemma quotients_zero_denominator :
  quotients [Num 5; Num 5; Num 5] = [(0, 0); (0, 0); (0, 0)]%float
  /\ (0 / 0)%float = nan
  /\ getLogColor lower_ascii two_color_interp named_rgb (Some example_well) "gr"
     = Ok (map Some (flat_map (continuous_color two_color_interp named_rgb)
                       [(0, 0); (0, 0); (0, 0)]%float)).
Proof. repeat split; reflexivity. Qed.

(** ** Clicks *)

Section Click.

Variable patchLayerProps : WellsLayer -> gmap string propval -> WellsLayer.

(** What [patchLayerProps] is taken to do: a prop the patch names takes the
    value the patch gives it, and no prop appears that neither the patch nor
    the layer has.  Merging the patch into the props and replacing the props
    by the patch both do. *)
Hypothesis patchLayerProps_sets : forall layer patch k v,
  patch !! k = Some v -> props (patchLayerProps layer patch) !! k = Some v.
Hypothesis patchLayerProps_adds_nothing : forall layer patch k,
  patch !! k = None -> props layer !! k = None ->
  props (patchLayerProps layer patch) !! k = None.

(** C10: with [this.props.selectionEnabled] falsy, [onClick] returns
    [false] and leaves the layer as it was; with it truthy, [onClick] returns
    [true], the prop [selectedFeature] becomes the clicked object, and every
    other prop keeps its value.  [this.props.selectionEnabled] is the value
    the layer was given, and [true], the default of [defaultProps], on a
    layer that was not given one. *)
Theorem onClick_frame (layer : WellsLayer) (i : WellsPickInfo) :
  (truthy (prop (props layer) "selectionEnabled") = false ->
   onClick patchLayerProps layer i = (false, layer))
  /\ (truthy (prop (props layer) "selectionEnabled") = true ->
      exists layer',
        onClick patchLayerProps layer i = (true, layer')
        /\ props layer' !! "selectedFeature" = Some (of_object (object (info i)))
        /\ forall k, k <> "selectedFeature" -> props layer' !! k = props layer !! k)
  /\ (props layer !! "selectionEnabled" = None ->
      truthy (prop (props layer) "selectionEnabled") = true).
Proof.
  split; [|split].
  - unfold onClick. intros Henabled. rewrite Henabled. reflexivity.
  - unfold onClick. intros Henabled. rewrite Henabled. simpl.
    eexists. split; [reflexivity|]. split.
    + apply patchLayerProps_sets, lookup_insert_eq.
    + intros k Hk.
      destruct (props layer !! k) as [v|] eqn:E.
      * apply patchLayerProps_sets. rewrite lookup_insert_ne by congruence. exact E.
      * apply patchLayerProps_adds_nothing; [|exact E].
        rewrite lookup_insert_ne by congruence. exact E.
  - intros Hunset. unfold prop. rewrite Hunset. reflexivity.
Qed.

End Click.

(** On a layer built with no prop, [selectionEnabled] is [true] by default:
    the click selects. *)
Lemma onClick_frame_witness :
  (truthy (prop (props example_bare_layer) "selectionEnabled") = false ->
   onClick merge_patch example_bare_layer (unchanged example_pick)
   = (false, example_bare_layer))
  /\ (truthy (prop (props example_bare_layer) "selectionEnabled") = true ->
      exists layer',
        onClick merge_patch example_bare_layer (unchanged example_pick)
        = (true, layer')
        /\ props layer' !! "selectedFeature"
           = Some (of_object (object (info (unchanged example_pick))))
        /\ forall k, k <> "selectedFeature" ->
             props layer' !! k = props example_bare_layer !! k)
  /\ (props example_bare_layer !! "selectionEnabled" = None ->
      truthy (prop (props example_bare_layer) "selectionEnabled") = true).
Proof.
  apply (onClick_frame merge_patch).
  - intros layer patch k v H. apply lookup_union_Some_l, H.
  - intros layer patch k Hp Hl. apply lookup_union_None. split; assumption.
Defined.

(** The click on the layer built with no prop, computed. *)
Example onClick_default_selects :
  prop (props example_bare_layer) "selectionEnabled" = VBool true
  /\ (onClick merge_patch example_bare_layer (unchanged example_pick)).1 = true
  /\ prop (props (onClick merge_patch example_bare_layer (unchanged example_pick)).2)
       "selectedFeature" = VObject example_well
  /\ (onClick merge_patch example_layer (unchanged example_pick)).1 = true
  /\ (onClick merge_patch example_busy_layer (unchanged example_pick))
     = (false, example_busy_layer).
Proof. repeat split; reflexivity. Qed.

(** ** The callbacks on the example well *)

Lemma getLogColor_missing_name_witness :
  getLogColor lower_ascii two_color_interp named_rgb (Some example_well) "porosity"
  = Ok [].
Proof.
  apply getLogColor_missing_name.
  intros cs H. injection H as <-. repeat constructor.
Defined.

Lemma getLogColor_one_color_per_sample_witness :
  exists colors,
    getLogColor lower_ascii two_color_interp named_rgb (Some example_well) "gr"
    = Ok colors
    /\ length colors = 3%nat.
Proof.
  eapply (getLogColor_one_color_per_sample lower_ascii two_color_interp named_rgb
            example_well "gr")
    with (i := 1%nat) (row := [Num 5; Num 5; Num 5]%float).
  - reflexivity.
  - split; [eexists; split; reflexivity|repeat constructor].
  - reflexivity.
  - reflexivity.
  - reflexivity.
  - intros _. apply named_rgb_two_color.
Defined.

(** C4 as stated fails at index [0]: the name [MD] is found there, its row
    has three samples, and [getLogColor] returns the empty array. *)
Lemma getLogColor_index_zero_empty :
  getLogIDByName lower_ascii (Some example_well) "md" = Some 0
  /\ length <$> (data example_well ≫= lookup 0%nat) = Some 3%nat
  /\ getLogColor lower_ascii two_color_interp named_rgb (Some example_well) "md"
     = Ok [].
Proof. repeat split; reflexivity. Qed.

Lemma getLogWidth_found_witness :
  getLogWidth lower_ascii (Some example_well) "Gr" = Ok (WRow [Num 5; Num 5; Num 5]).
Proof.
  eapply (getLogWidth_found lower_ascii example_well "Gr") with (i := 1%nat).
  - reflexivity.
  - split; [eexists; split; reflexivity|repeat constructor].
  - reflexivity.
  - reflexivity.
Defined.

(** C5 as stated fails at index [0]: the name [MD] is found there, the row
    [d.data[0]] is present, and [getLogWidth] returns [null]. *)
Lemma getLogWidth_index_zero_null :
  getLogIDByName lower_ascii (Some example_well) "md" = Some 0
  /\ data example_well ≫= lookup 0%nat = Some [Pt [0; 0]; Pt [3; 4]; Pt [6; 8]]%float
  /\ getLogWidth lower_ascii (Some example_well) "md" = Ok WNull.
Proof. repeat split; reflexivity. Qed.

(** The pick of the example well with [logName = "gr"]: the nearest vertex
    to [[3, 3]] is vertex [1], and the value reported is the sample [1] of
    the row of [GR]. *)
Lemma getPickingInfo_found_witness :
  getPickingInfo lower_ascii "gr" example_pick
  = Ok {| info := example_pick;
          propertyValue := Some ([Num 5; Num 5; Num 5]%float !! 1%nat);
          logName := Some "GR" |}.
Proof.
  eapply (getPickingInfo_found lower_ascii "gr" example_pick example_well)
    with (n := 1%nat) (c := [3; 3]%float) (min_d := 1%float)
         (curve := {| name := "GR"; description := "continuous" |}).
  - reflexivity.
  - reflexivity.
  - reflexivity.
  - reflexivity.
  - reflexivity.
  - split; [eexists; split; reflexivity|repeat constructor].
  - discriminate.
  - reflexivity.
  - reflexivity.
  - reflexivity.
Defined.

(** C6 on the example: a pick of the well while [logName] is a name none of
    its curves has.  [getPickingInfo] does not hand [info] back, it
    throws. *)
Theorem getPickingInfo_unknown_log_throws :
  getLogIDByName lower_ascii (Some example_well) "porosity" = Some (-1)
  /\ getPickingInfo lower_ascii "porosity" example_pick = Throw TypeError.
Proof. split; reflexivity. Qed.

(** C8 on the example: the value [9] of the discrete log [Facies] gives
    [9 % 10 = 9], past the nine entries of [COLOR_MAP], and [undefined] is
    pushed. *)
Theorem getLogColor_pushes_undefined :
  length COLOR_MAP = 9%nat
  /\ JsNumber.rem 9 10 = 9%float
  /\ discrete_color (Num 9) = None
  /\ getLogColor lower_ascii two_color_interp named_rgb (Some example_well) "facies"
     = Ok [Some [0; 255; 0; 255]; None; Some [255; 255; 0; 255]]%float.
Proof. repeat split; reflexivity. Qed.

Lemma loop_step_deterministic trajectory c s s1 s2 :
  loop_step trajectory c s s1 -> loop_step trajectory c s s2 -> s1 = s2.
Proof.
  intros H1 H2. destruct H1 as [s a Ha Hgt|s a Ha Hgt];
    inversion H2 as [s' a' Ha' Hgt'|s' a' Ha' Hgt']; subst;
    rewrite Ha in Ha'; injection Ha' as <-; congruence.
Qed.

Lemma loop_step_in_range trajectory c s s' :
  loop_step trajectory c s s' -> (loop_i s < length trajectory)%nat.
Proof.
  intros H. destruct H as [s a Ha _|s a Ha _]; eapply lookup_lt_Some; exact Ha.
Qed.

Lemma loop_run_deterministic trajectory c s s1 s2 :
  loop_run trajectory c s s1 -> loop_run trajectory c s s2 -> s1 = s2.
Proof.
  intros H1. revert s2.
  induction H1 as [s Hexit|s s' s'' Hstep _ IH]; intros s2 H2.
  - destruct H2 as [s _|s t t' Hstep' _]; [reflexivity|].
    apply loop_step_in_range in Hstep'. lia.
  - destruct H2 as [s Hexit|s t t' Hstep' Hrun'].
    + apply loop_step_in_range in Hstep. lia.
    + rewrite <- (loop_step_deterministic _ _ _ _ _ Hstep Hstep') in Hrun'.
      apply IH, Hrun'.
Qed.

(** Every state in range runs to the exit, to the state the function
    computes on the vertices not yet visited. *)
Lemma loop_run_scan trajectory c : forall n s,
  (loop_i s + n = length trajectory)%nat ->
  loop_run trajectory c s
    {| loop_i := length trajectory;
       loop_vertex_index :=
         (scan (map (fun a => squared_distance a c) (drop (loop_i s) trajectory))
            (loop_i s) (loop_vertex_index s) (loop_min_d s)).1;
       loop_min_d :=
         (scan (map (fun a => squared_distance a c) (drop (loop_i s) trajectory))
            (loop_i s) (loop_vertex_index s) (loop_min_d s)).2 |}.
Proof.
  induction n as [|n IH]; intros [i vi m] Hn; simpl in *.
  - rewrite drop_ge by lia. simpl.
    replace (length trajectory) with i by lia. apply run_exit. simpl. lia.
  - destruct (lookup_lt_is_Some_2 trajectory i ltac:(lia)) as [a Ha].
    rewrite (drop_S _ _ _ Ha). simpl.
    destruct (JsNumber.gt (squared_distance a c) m) eqn:Hgt.
    + eapply run_iterate.
      * apply (step_continue _ _ {| loop_i := i |} a Ha Hgt).
      * apply (IH {| loop_i := S i |}). simpl. lia.
    + eapply run_iterate.
      * apply (step_take _ _ {| loop_i := i |} a Ha Hgt).
      * apply (IH {| loop_i := S i |}). simpl. lia.
Qed.

Lemma nearest_vertex_run trajectory c vertex_index min_d :
  nearest_vertex trajectory (Some c) = Ok (vertex_index, min_d) ->
  loop_run trajectory c loop_start
    {| loop_i := length trajectory;
       loop_vertex_index := vertex_index;
       loop_min_d := min_d |}.
Proof.
  unfold nearest_vertex. rewrite nearest_from_scan. intros [= H].
  pose proof (loop_run_scan trajectory c (length trajectory) loop_start eq_refl) as Hrun.
  simpl in Hrun. rewrite drop_0, H in Hrun. exact Hrun.
Qed.

(** The loop on the trajectory of the example well and the pointer
    [[3, 3]]: three iterations, ending on vertex [1] at squared distance
    [1]. *)
Lemma nearest_vertex_run_witness :
  loop_run [Pt [0; 0]; Pt [3; 4]; Pt [6; 8]]%float [3; 3]%float loop_start
    {| loop_i := 3; loop_vertex_index := 1; loop_min_d := 1%float |}.
Proof.
  apply (nearest_vertex_run [Pt [0; 0]; Pt [3; 4]; Pt [6; 8]]%float
           [3; 3]%float 1%nat 1%float).
  reflexivity.
Defined.

(** ** More on the scan: bounds *)

Section ScanBounds.

Local Open Scope float_scope.

(** On a non-empty trajectory with a pointer coordinate, whatever the
    numbers ([NaN] and infinities included), the [vertex_index] computed is
    an index of the trajectory.  Either no vertex was taken (the index is
    still [0], [min_d] is still [Number.MAX_VALUE], and every squared distance
    is [+Infinity]), or [min_d] is the squared distance of the vertex at
    [vertex_index]. *)
Theorem nearest_vertex_in_range (trajectory : list sample) (c : list float) :
  trajectory <> [] ->
  exists vertex_index min_d,
    nearest_vertex trajectory (Some c) = Ok (vertex_index, min_d)
    /\ (vertex_index < length trajectory)%nat
    /\ ((vertex_index = 0%nat /\ min_d = JsNumber.MAX_VALUE
         /\ Forall (fun a => squared_distance a c = infinity) trajectory)
        \/ exists a, trajectory !! vertex_index = Some a
                     /\ squared_distance a c = min_d).
Proof.
  intros Hne. unfold nearest_vertex. rewrite nearest_from_scan.
  set (ds := map (fun a => squared_distance a c) trajectory).
  destruct (scan ds 0 0 JsNumber.MAX_VALUE) as [vi m] eqn:Hscan.
  exists vi, m. split; [reflexivity|].
  destruct (scan_shape ds 0 0 JsNumber.MAX_VALUE) as [[Heq Hall]|(k & Hk & Hd & _)];
    rewrite Hscan in *; simpl in *.
  - injection Heq as -> ->. split.
    + destruct trajectory; [congruence|simpl; lia].
    + left. repeat split. apply Forall_lookup. intros j a Hj.
      apply FloatOrder.gt_MAX_VALUE, (Hall j).
      unfold ds. rewrite lookup_map, Hj. reflexivity.
  - subst vi. destruct (lookup_distance _ _ _ _ Hd) as (a & Ha & Hdist).
    split; [eapply lookup_lt_Some; exact Ha|]. right. eauto.
Qed.

Lemma nearest_vertex_in_range_witness :
  exists vertex_index min_d,
    nearest_vertex [Pt [nan; 0]; Num 4; Pt [infinity; 1]]%float (Some [3; 3]%float)
    = Ok (vertex_index, min_d)
    /\ (vertex_index < 3)%nat
    /\ ((vertex_index = 0%nat /\ min_d = JsNumber.MAX_VALUE
         /\ Forall (fun a => squared_distance a [3; 3] = infinity)
              [Pt [nan; 0]; Num 4; Pt [infinity; 1]]%float)
        \/ exists a, [Pt [nan; 0]; Num 4; Pt [infinity; 1]]%float !! vertex_index = Some a
                     /\ squared_distance a [3; 3] = min_d).
Proof.
  apply (nearest_vertex_in_range [Pt [nan; 0]; Num 4; Pt [infinity; 1]]%float
           [3; 3]%float).
  discriminate.
Defined.

End ScanBounds.

(** ** More on the log lookup *)

Lemma findIndex_from_cases {A} (p : A -> bool) (l : list A) (z : Z) :
  (findIndex_from p l z = -1 /\ Forall (fun y => p y = false) l)
  \/ (exists i, findIndex_from p l z = z + Z.of_nat i /\ first_match p l i).
Proof.
  revert z. induction l as [|x l IH]; intros z; simpl.
  - left. split; [reflexivity|constructor].
  - destruct (p x) eqn:Hx.
    + right. exists 0%nat. split; [lia|].
      split; [exists x; split; [reflexivity|exact Hx]|constructor].
    + destruct (IH (z + 1)) as [[Hr Hall]|(i & Hr & (y & Hy & Hp) & Hbefore)].
      * left. split; [exact Hr|constructor; assumption].
      * right. exists (S i). split; [lia|].
        split; [exists y; split; assumption|]. simpl. constructor; assumption.
Qed.

Lemma findIndex_ext {A} (p q : A -> bool) (l : list A) (z : Z) :
  (forall x, p x = q x) -> findIndex_from p l z = findIndex_from q l z.
Proof.
  intros H. revert z. induction l as [|x l IH]; intros z; simpl; [reflexivity|].
  rewrite H, IH. reflexivity.
Qed.

Lemma index_from_elem {A} (l : list A) (n k : float) (x : A) :
  JsNumber.index_from l n k = Some x -> x ∈ l.
Proof.
  revert n. induction l as [|y l IH]; intros n; simpl; [discriminate|].
  destruct (k =? n)%float.
  - intros [= ->]. left.
  - intros H. right. eapply IH, H.
Qed.

Section LookupFacts.

Variable toLowerCase : string -> string.
Variable color_interp : float -> string.
Variable color_rgb : string -> option (float * float * float).

Local Abbreviation same_name := (same_name toLowerCase).
Local Abbreviation getLogIDByName := (getLogIDByName toLowerCase).
Local Abbreviation getLogColor := (getLogColor toLowerCase color_interp color_rgb).
Local Abbreviation getLogWidth := (getLogWidth toLowerCase).
Local Abbreviation getPickingInfo := (getPickingInfo toLowerCase).

Lemma same_name_true (log_name : string) (item : Curve) :
  same_name log_name item = true <-> toLowerCase (name item) = toLowerCase log_name.
Proof. unfold same_name. apply String.eqb_eq. Qed.

Lemma same_name_false (log_name : string) (item : Curve) :
  same_name log_name item = false <-> toLowerCase (name item) <> toLowerCase log_name.
Proof. unfold same_name. apply String.eqb_neq. Qed.

(** The id found in a curve list: [-1] with no curve of that name, or the
    first index whose curve has the name up to case. *)
Lemma getLogIDByName_cases (d : LogCurveDataType) (cs : list Curve) (log_name : string) :
  curves d = Some cs ->
  (getLogIDByName (Some d) log_name = Some (-1)
   /\ Forall (fun item => same_name log_name item = false) cs)
  \/ (exists i, getLogIDByName (Some d) log_name = Some (Z.of_nat i)
                /\ first_match (same_name log_name) cs i).
Proof.
  intros Hcs. unfold getLogIDByName, findIndex. rewrite Hcs.
  destruct (findIndex_from_cases (same_name log_name) cs 0)
    as [[-> Hall]|(i & -> & Hi)]; [left|right]; eauto.
Qed.

(** What [getLogIDByName] finds: on a curve list, either [-1] and no curve
    has the name up to case, or an index of the list whose curve has the
    name up to case while no curve before it has. *)
Theorem getLogIDByName_first_index (d : LogCurveDataType) (cs : list Curve)
    (log_name : string) :
  curves d = Some cs ->
  (getLogIDByName (Some d) log_name = Some (-1)
   /\ forall k item, cs !! k = Some item ->
        toLowerCase (name item) <> toLowerCase log_name)
  \/ (exists i curve,
        getLogIDByName (Some d) log_name = Some (Z.of_nat i)
        /\ cs !! i = Some curve
        /\ toLowerCase (name curve) = toLowerCase log_name
        /\ forall k item, (k < i)%nat -> cs !! k = Some item ->
             toLowerCase (name item) <> toLowerCase log_name).
Proof.
  intros Hcs.
  destruct (getLogIDByName_cases d cs log_name Hcs)
    as [[Hid Hall]|(i & Hid & (curve & Hcurve & Hp) & Hbefore)].
  - left. split; [exact Hid|]. intros k item Hk.
    apply same_name_false. exact (Forall_lookup_1 _ _ _ _ Hall Hk).
  - right. exists i, curve. repeat split; [exact Hid|exact Hcurve| |].
    + apply same_name_true, Hp.
    + intros k item Hlt Hk. apply same_name_false.
      eapply (Forall_lookup_1 _ _ k item Hbefore).
      rewrite lookup_take_lt by exact Hlt. exact Hk.
Qed.

(** The case of the name asked for does not matter: two names with the
    same lower-case form give the same id, colours, widths and pick. *)
Theorem log_name_case_insensitive (d : option LogCurveDataType)
    (name1 name2 : string) (i : PickInfo) :
  toLowerCase name1 = toLowerCase name2 ->
  getLogIDByName d name1 = getLogIDByName d name2
  /\ getLogColor d name1 = getLogColor d name2
  /\ getLogWidth d name1 = getLogWidth d name2
  /\ getPickingInfo name1 i = getPickingInfo name2 i.
Proof.
  intros Hnames.
  assert (Hid : forall d', getLogIDByName d' name1 = getLogIDByName d' name2).
  { intros [d'|]; [|reflexivity]. unfold getLogIDByName, findIndex.
    destruct (curves d') as [cs|]; [|reflexivity]. f_equal.
    apply findIndex_ext. intros item. unfold same_name.
    rewrite Hnames. reflexivity. }
  repeat split.
  - apply Hid.
  - unfold getLogColor. rewrite Hid. reflexivity.
  - unfold getLogWidth. rewrite Hid. reflexivity.
  - unfold getPickingInfo.
    destruct (object i) as [o|]; [|reflexivity].
    rewrite (Hid (Some o)). reflexivity.
Qed.

(** A log that [curves] names at an index other than [0] but for which
    [data] has no row: [getLogColor] throws, while [getLogWidth] returns
    [undefined], or throws as well when [data] itself is missing. *)
Theorem log_without_row (d : LogCurveDataType) (log_name : string)
    (cs : list Curve) (i : nat) :
  curves d = Some cs ->
  first_match (same_name log_name) cs i ->
  i <> 0%nat ->
  data d ≫= lookup i = None ->
  getLogColor (Some d) log_name = Throw TypeError
  /\ getLogWidth (Some d) log_name
     = match data d with
       | Some _ => Ok WUndefined
       | None => Throw TypeError
       end.
Proof.
  intros Hcs Hi Hi0 Hrow.
  destruct Hi as [(curve & Hcurve & Hp) Hbefore].
  assert (Hid : getLogIDByName (Some d) log_name = Some (Z.of_nat i)).
  { apply (getLogIDByName_first toLowerCase d cs log_name i Hcs).
    split; eauto. }
  assert (Ht : truthy_id (Some (Z.of_nat i)) = true).
  { simpl. destruct (Z.eqb_spec (Z.of_nat i) 0); [lia|reflexivity]. }
  unfold getLogColor, getLogWidth. rewrite Hid, Ht.
  unfold curve_at, row_at. cbn [negb bind defined]. rewrite Hcs.
  cbn [bind defined mbind option_bind]. rewrite at_index_of_nat, Hcurve.
  destruct (data d) as [rows|]; cbn [bind defined mbind option_bind] in *.
  - rewrite at_index_of_nat, Hrow. split; reflexivity.
  - split; reflexivity.
Qed.

(** The entries of the colour array of a log found at an index other than
    [0].  For a ["continuous"] log every entry is a colour of three
    channels and there are at most as many as samples; otherwise there is
    one entry per sample, each [undefined] or one of the colours of
    [COLOR_MAP]. *)
Theorem getLogColor_entries (d : LogCurveDataType) (log_name : string)
    (cs : list Curve) (i : nat) (curve : Curve)
    (rows : list (list sample)) (row : list sample) :
  curves d = Some cs ->
  first_match (same_name log_name) cs i ->
  i <> 0%nat ->
  cs !! i = Some curve ->
  data d = Some rows ->
  rows !! i = Some row ->
  exists colors,
    getLogColor (Some d) log_name = Ok colors
    /\ if String.eqb (description curve) "continuous"
       then (length colors <= length row)%nat
            /\ Forall (fun entry => exists r g b, entry = Some [r; g; b]) colors
       else length colors = length row
            /\ Forall (fun entry =>
                         entry = None
                         \/ exists rgba, entry = Some rgba /\ rgba ∈ COLOR_MAP)
                 colors.
Proof.
  intros Hcs Hi Hi0 Hcurve Hrows Hrow.
  rewrite (getLogColor_found toLowerCase color_interp color_rgb
             d log_name cs i curve rows row) by assumption.
  destruct (String.eqb (description curve) "continuous").
  - eexists. split; [reflexivity|]. split.
    + rewrite length_map, <- (quotients_length row).
      induction (quotients row) as [|q qs IH]; simpl; [lia|].
      rewrite length_app. unfold continuous_color at 1.
      destruct (color_rgb _) as [[[r g] b]|]; simpl; lia.
    + apply Forall_map. induction (quotients row) as [|q qs IH]; simpl.
      * constructor.
      * apply Forall_app. split; [|exact IH]. unfold continuous_color.
        destruct (color_rgb _) as [[[r g] b]|]; repeat constructor; eauto.
  - eexists. split; [reflexivity|]. split; [apply length_map|].
    apply Forall_map, Forall_forall. intros value _.
    unfold discrete_color, JsNumber.array_get.
    destruct (JsNumber.index_from _ _ _) as [rgba|] eqn:E; [right|left; reflexivity].
    exists rgba. split; [reflexivity|]. eapply index_from_elem, E.
Qed.

(** Whenever [getPickingInfo] returns, its result carries the input [info]
    as it came.  Either nothing is added, or both [propertyValue] and
    [logName] are, and then [logName] is the name of a curve of the picked
    object, at an index other than [0], that equals [this.props.logName] up
    to case. *)
Theorem getPickingInfo_extends (log_name : string) (i : PickInfo) (r : WellsPickInfo) :
  getPickingInfo log_name i = Ok r ->
  info r = i
  /\ (r = unchanged i
      \/ exists o cs n curve value,
           object i = Some o /\ curves o = Some cs
           /\ cs !! n = Some curve /\ n <> 0%nat
           /\ toLowerCase (name curve) = toLowerCase log_name
           /\ propertyValue r = Some value
           /\ logName r = Some (name curve)).
Proof.
  unfold getPickingInfo.
  destruct (object i) as [o|] eqn:Ho; [|intros [= <-]; auto].
  destruct (data o) as [rows|]; [|intros [= <-]; auto].
  destruct (rows !! 0%nat) as [trajectory|]; [|discriminate].
  cbn [bind defined].
  destruct (nearest_vertex trajectory (coordinate i)) as [[vi m]|]; [|discriminate].
  cbn [bind defined fst].
  destruct (curves o) as [cs|] eqn:Hcs;
    [|unfold getLogIDByName; rewrite Hcs; intros [= <-]; auto].
  destruct (getLogIDByName_cases o cs log_name Hcs)
    as [[-> _]|(n & -> & (curve & Hcurve & Hname) & _)].
  2: apply same_name_true in Hname.
  - cbn [truthy_id negb Z.eqb mbind option_bind]. rewrite at_index_negative by lia.
    discriminate.
  - destruct (Nat.eq_dec n 0%nat) as [->|Hn]; [intros [= <-]; auto|].
    assert (Ht : truthy_id (Some (Z.of_nat n)) = true).
    { simpl. destruct (Z.eqb_spec (Z.of_nat n) 0); [lia|reflexivity]. }
    rewrite Ht. cbn [negb mbind option_bind]. rewrite at_index_of_nat.
    destruct (rows !! n) as [row|]; [|discriminate].
    cbn [bind defined]. rewrite at_index_of_nat, Hcurve. cbn [bind defined].
    intros [= <-]. split; [reflexivity|]. right.
    exists o, cs, n, curve, (row !! vi). repeat split; assumption.
Qed.

(** When the body of [getPickingInfo] throws for a [logName] that is a
    string, on a picked object with a [data] field. *)
Lemma getPickingInfo_throws_cases (log_name : string) (i : PickInfo)
    (o : LogCurveDataType) (rows : list (list sample)) :
  object i = Some o ->
  data o = Some rows ->
  getPickingInfo log_name i = Throw TypeError
  <-> (rows !! 0%nat = None
       \/ (exists a rest, rows !! 0%nat = Some (a :: rest) /\ coordinate i = None)
       \/ (exists z, getLogIDByName (Some o) log_name = Some z
                     /\ z <> 0 /\ at_index rows z = None)).
Proof.
  intros Ho Hrows. unfold getPickingInfo. rewrite Ho, Hrows.
  destruct (rows !! 0%nat) as [trajectory|] eqn:Ht; cbn [bind defined];
    [|split; auto].
  destruct (coordinate i) as [c|] eqn:Hc.
  - destruct (nearest_vertex_returns trajectory c) as (vi & m & ->).
    cbn [bind defined fst].
    destruct (curves o) as [cs|] eqn:Hcs.
    + destruct (getLogIDByName_cases o cs log_name Hcs)
        as [[Hid _]|(n & Hid & (curve & Hcurve & _) & _)]; rewrite Hid.
      * cbn [truthy_id negb Z.eqb mbind option_bind].
        rewrite at_index_negative by lia. cbn [bind defined]. split; [|reflexivity].
        intros _. right. right. exists (-1).
        split; [reflexivity|]. split; [lia|]. apply at_index_negative. lia.
      * destruct (Nat.eq_dec n 0%nat) as [->|Hn].
        { cbn. split; [discriminate|].
          intros [H|[(a & rest & H1 & H2)|(z & Hz & Hne & _)]]; try congruence.
          injection Hz as <-. lia. }
        assert (Htr : truthy_id (Some (Z.of_nat n)) = true).
        { simpl. destruct (Z.eqb_spec (Z.of_nat n) 0); [lia|reflexivity]. }
        rewrite Htr. cbn [negb mbind option_bind]. rewrite at_index_of_nat.
        destruct (rows !! n) as [row|] eqn:Hrow; cbn [bind defined].
        { rewrite at_index_of_nat, Hcurve. cbn [bind defined].
          split; [discriminate|].
          intros [H|[(a & rest & H1 & H2)|(z & Hz & _ & Hnone)]]; try congruence.
          injection Hz as <-. rewrite at_index_of_nat in Hnone. congruence. }
        split; [|reflexivity]. intros _. right. right.
        exists (Z.of_nat n). split; [reflexivity|]. split; [lia|].
        rewrite at_index_of_nat. exact Hrow.
    + unfold getLogIDByName. rewrite Hcs. cbn. split; [discriminate|].
      intros [H|[(a & rest & H1 & H2)|(z & H & _)]]; congruence.
  - destruct trajectory as [|a rest].
    + cbn [nearest_vertex nearest_from bind defined fst].
      destruct (curves o) as [cs|] eqn:Hcs.
      * destruct (getLogIDByName_cases o cs log_name Hcs)
          as [[Hid _]|(n & Hid & (curve & Hcurve & _) & _)]; rewrite Hid.
        { cbn [truthy_id negb Z.eqb mbind option_bind].
          rewrite at_index_negative by lia. cbn [bind defined]. split; [|reflexivity].
          intros _. right. right. exists (-1).
          split; [reflexivity|]. split; [lia|]. apply at_index_negative. lia. }
        destruct (Nat.eq_dec n 0%nat) as [->|Hn].
        { cbn. split; [discriminate|].
          intros [H|[(a & rest & H1 & H2)|(z & Hz & Hne & _)]]; try congruence.
          injection Hz as <-. lia. }
        assert (Htr : truthy_id (Some (Z.of_nat n)) = true).
        { simpl. destruct (Z.eqb_spec (Z.of_nat n) 0); [lia|reflexivity]. }
        rewrite Htr. cbn [negb mbind option_bind]. rewrite at_index_of_nat.
        destruct (rows !! n) as [row|] eqn:Hrow; cbn [bind defined].
        { rewrite at_index_of_nat, Hcurve. cbn [bind defined].
          split; [discriminate|].
          intros [H|[(a & rest & H1 & H2)|(z & Hz & _ & Hnone)]]; try congruence.
          injection Hz as <-. rewrite at_index_of_nat in Hnone. congruence. }
        split; [|reflexivity]. intros _. right. right.
        exists (Z.of_nat n). split; [reflexivity|]. split; [lia|].
        rewrite at_index_of_nat. exact Hrow.
      * unfold getLogIDByName. rewrite Hcs. cbn. split; [discriminate|].
        intros [H|[(a & rest & H1 & H2)|(z & H & _)]]; congruence.
    + cbn. split; [|reflexivity]. intros _. right. left. eauto.
Qed.

End LookupFacts.

(** ** Squared distances are not negative *)

Module FloatSign.

Local Open Scope float_scope.

Lemma binary_round_aux_sign s m e l :
  signed_as s (binary_round_aux prec emax s m e l).
Proof.
  unfold binary_round_aux.
  destruct (shr_fexp prec emax m e l) as [mrs' e'].
  destruct (shr_fexp prec emax _ e' loc_Exact) as [mrs'' e''].
  destruct (shr_m mrs''); simpl; auto.
  match goal with |- context [if ?b then _ else _] => destruct b end;
    simpl; auto.
Qed.

Lemma binary_round_sign s m e : signed_as s (binary_round prec emax s m e).
Proof.
  unfold binary_round. destruct (shl_align m e _) as [mz ez].
  apply binary_round_aux_sign.
Qed.

Lemma SFmul_self_sign x : signed_as false (SF64mul x x).
Proof.
  destruct x as [[]|[]| |[] m e]; simpl; auto; apply binary_round_aux_sign.
Qed.

Lemma SFadd_sign x y :
  signed_as false x -> signed_as false y -> signed_as false (SF64add x y).
Proof.
  destruct x as [[]|[]| |[] m e], y as [[]|[]| |[] m' e']; simpl; intros;
    try discriminate; auto.
  unfold binary_normalize. simpl. apply binary_round_sign.
Qed.

Lemma not_below_zero x : signed_as false (Prim2SF x) -> (x <? 0) = false.
Proof.
  rewrite FloatAxioms.ltb_spec. change (Prim2SF 0) with (S754_zero false).
  destruct (Prim2SF x) as [[]|[]| |[] m e]; simpl; intros;
    try discriminate; auto.
Qed.

Lemma sum_of_squares_sign a b : signed_as false (Prim2SF (a * a + b * b)).
Proof.
  rewrite add_spec, !mul_spec. apply SFadd_sign; apply SFmul_self_sign.
Qed.

End FloatSign.

(** The squared distance of a vertex to a coordinate is [NaN] or at least
    [0], whatever the vertex and the coordinate hold; rounding and overflow
    never make it negative. *)
Theorem squared_distance_not_negative (a : sample) (b : list float) :
  is_nan (squared_distance a b) = true
  \/ (0 <=? squared_distance a b)%float = true.
Proof.
  destruct (is_nan (squared_distance a b)) eqn:Hnan; [left; reflexivity|right].
  apply FloatOrder.nlt_leb; [exact Hnan|reflexivity|].
  apply FloatSign.not_below_zero. unfold squared_distance.
  apply FloatSign.sum_of_squares_sign.
Qed.

(** ** The sublayers *)

Section RenderFacts.

Variable toLowerCase : string -> string.
Variable color_interp : float -> string.
Variable color_rgb : string -> option (float * float * float).
Variable StringToNumber : string -> float.

Local Abbreviation colors_layer := (colors_layer StringToNumber).
Local Abbreviation highlight_layer := (highlight_layer StringToNumber).
Local Abbreviation log_layer := (log_layer toLowerCase color_interp color_rgb).
Local Abbreviation renderLayers :=
  (renderLayers toLowerCase color_interp color_rgb StringToNumber).

(** The order of the sublayers, which is the order they are drawn in.  The
    highlight is always last.  The log curves, when shown, are always
    second: over the outline and under the colours when there is an outline,
    but over the colours when there is none. *)
Theorem renderLayers_order (props : gmap string propval) :
  renderLayers props
  = (if truthy (prop props "outline")
     then [outline_layer props] else [colors_layer props])
    ++ (if truthy (prop props "logCurves") then [log_layer props] else [])
    ++ (if truthy (prop props "outline") then [colors_layer props] else [])
    ++ [highlight_layer props].
Proof.
  unfold renderLayers.
  destruct (truthy (prop props "outline")), (truthy (prop props "logCurves"));
    reflexivity.
Qed.

Lemma renderLayers_ids (props : gmap string propval) :
  map layer_id (renderLayers props)
  = (if truthy (prop props "outline") then ["outline"] else ["colors"])
    ++ (if truthy (prop props "logCurves") then ["log_curve"] else [])
    ++ (if truthy (prop props "outline") then ["colors"] else [])
    ++ ["highlight"].
Proof.
  unfold renderLayers.
  destruct (truthy (prop props "outline")), (truthy (prop props "logCurves"));
    reflexivity.
Qed.

Lemma renderLayers_elem (props : gmap string propval) (l : SubLayer) :
  l ∈ renderLayers props ->
  l = outline_layer props \/ l = colors_layer props
  \/ l = log_layer props \/ l = highlight_layer props.
Proof.
  unfold renderLayers.
  destruct (truthy (prop props "outline")), (truthy (prop props "logCurves"));
    cbn; intros Hl;
    repeat (apply elem_of_cons in Hl as [->|Hl]; [tauto|]);
    apply elem_of_nil in Hl; destruct Hl.
Qed.

(** The sublayers have pairwise different ids, and the pickable ones are
    exactly the colours and the log curves: a pick never comes from the
    outline or from the highlight. *)
Theorem renderLayers_pickable (props : gmap string propval) :
  NoDup (map layer_id (renderLayers props))
  /\ forall l, l ∈ renderLayers props ->
       (layer_pickable l = true
        <-> layer_id l = "colors" \/ layer_id l = "log_curve").
Proof.
  split.
  - rewrite renderLayers_ids.
    destruct (truthy (prop props "outline")), (truthy (prop props "logCurves"));
      apply (bool_decide_unpack _); vm_compute; exact I.
  - intros l Hl.
    destruct (renderLayers_elem props l Hl) as [-> | [-> | [-> | ->]]]; cbn; split;
      try discriminate; auto; intros [H|H]; discriminate H.
Qed.

Variable patchLayerProps : WellsLayer -> gmap string propval -> WellsLayer.

Hypothesis patchLayerProps_sets : forall layer patch k v,
  patch !! k = Some v -> props (patchLayerProps layer patch) !! k = Some v.
Hypothesis patchLayerProps_adds_nothing : forall layer patch k,
  patch !! k = None -> props layer !! k = None ->
  props (patchLayerProps layer patch) !! k = None.

(** The props after a click that selects. *)
Lemma onClick_selected_props (layer : WellsLayer) (i : WellsPickInfo) :
  truthy (prop (props layer) "selectionEnabled") = true ->
  prop (props (onClick patchLayerProps layer i).2) "selectedFeature"
  = of_object (object (info i))
  /\ forall k, k <> "selectedFeature" ->
       prop (props (onClick patchLayerProps layer i).2) k = prop (props layer) k.
Proof.
  intros Henabled. unfold onClick. rewrite Henabled. simpl. unfold prop. split.
  - rewrite (patchLayerProps_sets _ _ _ (of_object (object (info i))));
      [reflexivity|apply lookup_insert_eq].
  - intros k Hk. destruct (props layer !! k) as [v|] eqn:E.
    + rewrite (patchLayerProps_sets _ _ _ v); [reflexivity|].
      rewrite lookup_insert_ne by congruence. exact E.
    + rewrite patchLayerProps_adds_nothing; [reflexivity| |exact E].
      rewrite lookup_insert_ne by congruence. exact E.
Qed.

(** A click that selects, then a new rendering: the highlight sublayer now
    shows the clicked object, the same sublayers are there in the same order,
    and the outline, colours and log-curve sublayers are as before.  The
    click selects when [this.props.selectionEnabled] is truthy, as it is by
    default on a layer that was not given the prop. *)
Theorem onClick_then_renderLayers (layer : WellsLayer) (i : WellsPickInfo) :
  truthy (prop (props layer) "selectionEnabled") = true ->
  layer_data (highlight_layer (props (onClick patchLayerProps layer i).2))
  = of_object (object (info i))
  /\ map layer_id (renderLayers (props (onClick patchLayerProps layer i).2))
     = map layer_id (renderLayers (props layer))
  /\ outline_layer (props (onClick patchLayerProps layer i).2)
     = outline_layer (props layer)
  /\ colors_layer (props (onClick patchLayerProps layer i).2)
     = colors_layer (props layer)
  /\ log_layer (props (onClick patchLayerProps layer i).2)
     = log_layer (props layer).
Proof.
  intros Henabled.
  destruct (onClick_selected_props layer i Henabled) as [Hsel Hother].
  set (props' := props (onClick patchLayerProps layer i).2) in *.
  assert (Hk : forall k, String.eqb k "selectedFeature" = false ->
                 prop props' k = prop (props layer) k).
  { intros k Hk. apply Hother. apply String.eqb_neq, Hk. }
  repeat split.
  - exact Hsel.
  - rewrite !renderLayers_ids.
    rewrite (Hk "outline" eq_refl), (Hk "logCurves" eq_refl). reflexivity.
  - unfold outline_layer.
    rewrite (Hk "data" eq_refl), (Hk "pointRadiusScale" eq_refl),
      (Hk "lineWidthScale" eq_refl). reflexivity.
  - unfold colors_layer.
    rewrite (Hk "data" eq_refl), (Hk "pointRadiusScale" eq_refl),
      (Hk "lineWidthScale" eq_refl). reflexivity.
  - unfold log_layer, getWidth.
    rewrite (Hk "logData" eq_refl), (Hk "logName" eq_refl),
      (Hk "logRadius" eq_refl). reflexivity.
Qed.

End RenderFacts.

Lemma onClick_then_renderLayers_witness :
  layer_data
    (highlight_layer no_number
       (props (onClick merge_patch example_bare_layer (unchanged example_pick)).2))
  = of_object (object (info (unchanged example_pick)))
  /\ map layer_id
       (renderLayers lower_ascii two_color_interp named_rgb no_number
          (props (onClick merge_patch example_bare_layer (unchanged example_pick)).2))
     = map layer_id
         (renderLayers lower_ascii two_color_interp named_rgb no_number
            (props example_bare_layer))
  /\ outline_layer
       (props (onClick merge_patch example_bare_layer (unchanged example_pick)).2)
     = outline_layer (props example_bare_layer)
  /\ colors_layer no_number
       (props (onClick merge_patch example_bare_layer (unchanged example_pick)).2)
     = colors_layer no_number (props example_bare_layer)
  /\ log_layer lower_ascii two_color_interp named_rgb
       (props (onClick merge_patch example_bare_layer (unchanged example_pick)).2)
     = log_layer lower_ascii two_color_interp named_rgb (props example_bare_layer).
Proof.
  apply (onClick_then_renderLayers lower_ascii two_color_interp named_rgb
           no_number merge_patch).
  - intros layer patch k v H. apply lookup_union_Some_l, H.
  - intros layer patch k Hp Hl. apply lookup_union_None. split; assumption.
  - reflexivity.
Defined.

(** ** The filter menu *)

(** After any sequence of clicks on the button and close requests, the menu
    is open exactly when the last event was a click, and it is then anchored
    to the button of that click; with no event yet it is closed.  Open or
    closed, it keeps its three entries mounted, in the same order. *)
Theorem menu_open_after_last_click (HTMLElement : Type)
    (events : list (FilterMenu.event HTMLElement)) :
  FilterMenu.open _ (FilterMenu.render _ (FilterMenu.run _ events))
  = match last events with
    | Some (FilterMenu.onClick _ _) => true
    | _ => false
    end
  /\ FilterMenu.anchorEl _ (FilterMenu.render _ (FilterMenu.run _ events))
     = match last events with
       | Some (FilterMenu.onClick _ currentTarget) => Some currentTarget
       | _ => None
       end
  /\ FilterMenu.keepMounted _ (FilterMenu.render _ (FilterMenu.run _ events)) = true
  /\ FilterMenu.children _ (FilterMenu.render _ (FilterMenu.run _ events))
     = [FilterMenu.HideZeroCompletionsSwitch; FilterMenu.ZoneSelector;
        FilterMenu.WellFilter].
Proof.
  unfold FilterMenu.run.
  destruct events as [|e events] using rev_ind; [repeat split|].
  rewrite fold_left_app, last_snoc. destruct e; repeat split.
Qed.

(** ** The further facts on the example wells *)

Lemma getLogIDByName_first_index_witness :
  (getLogIDByName lower_ascii (Some example_well) "facies" = Some (-1)
   /\ forall k item, example_curves !! k = Some item ->
        lower_ascii (name item) <> lower_ascii "facies")
  \/ (exists i curve,
        getLogIDByName lower_ascii (Some example_well) "facies" = Some (Z.of_nat i)
        /\ example_curves !! i = Some curve
        /\ lower_ascii (name curve) = lower_ascii "facies"
        /\ forall k item, (k < i)%nat -> example_curves !! k = Some item ->
             lower_ascii (name item) <> lower_ascii "facies").
Proof.
  apply (getLogIDByName_first_index lower_ascii example_well example_curves "facies").
  reflexivity.
Defined.

Lemma log_name_case_insensitive_witness :
  getLogIDByName lower_ascii (Some example_well) "GR"
  = getLogIDByName lower_ascii (Some example_well) "gr"
  /\ getLogColor lower_ascii two_color_interp named_rgb (Some example_well) "GR"
     = getLogColor lower_ascii two_color_interp named_rgb (Some example_well) "gr"
  /\ getLogWidth lower_ascii (Some example_well) "GR"
     = getLogWidth lower_ascii (Some example_well) "gr"
  /\ getPickingInfo lower_ascii "GR" example_pick
     = getPickingInfo lower_ascii "gr" example_pick.
Proof.
  apply (log_name_case_insensitive lower_ascii two_color_interp named_rgb).
  reflexivity.
Defined.

Lemma log_without_row_witness :
  getLogColor lower_ascii two_color_interp named_rgb (Some example_short_well) "facies"
  = Throw TypeError
  /\ getLogWidth lower_ascii (Some example_short_well) "facies"
     = match data example_short_well with
       | Some _ => Ok WUndefined
       | None => Throw TypeError
       end.
Proof.
  eapply (log_without_row lower_ascii two_color_interp named_rgb
            example_short_well "facies") with (i := 2%nat).
  - reflexivity.
  - split; [eexists; split; reflexivity|repeat constructor].
  - discriminate.
  - reflexivity.
Defined.

Lemma getLogColor_entries_witness :
  exists colors,
    getLogColor lower_ascii two_color_interp named_rgb (Some example_well) "facies"
    = Ok colors
    /\ length colors = length [Num 1; Num 9; Num 3]%float
    /\ Forall (fun entry =>
                 entry = None
                 \/ exists rgba, entry = Some rgba /\ rgba ∈ COLOR_MAP)
         colors.
Proof.
  eapply (getLogColor_entries lower_ascii two_color_interp named_rgb
            example_well "facies")
    with (i := 2%nat) (curve := {| name := "Facies"; description := "discrete" |}).
  - reflexivity.
  - split; [eexists; split; reflexivity|repeat constructor].
  - discriminate.
  - reflexivity.
  - reflexivity.
  - reflexivity.
Defined.

Lemma getPickingInfo_extends_witness :
  info {| info := example_pick;
          propertyValue := Some (Some (Num 5));
          logName := Some "GR" |} = example_pick
  /\ ({| info := example_pick;
         propertyValue := Some (Some (Num 5));
         logName := Some "GR" |} = unchanged example_pick
      \/ exists o cs n curve value,
           object example_pick = Some o /\ curves o = Some cs
           /\ cs !! n = Some curve /\ n <> 0%nat
           /\ lower_ascii (name curve) = lower_ascii "gr"
           /\ propertyValue {| info := example_pick;
                               propertyValue := Some (Some (Num 5));
                               logName := Some "GR" |} = Some value
           /\ logName {| info := example_pick;
                         propertyValue := Some (Some (Num 5));
                         logName := Some "GR" |} = Some (name curve)).
Proof.
  apply (getPickingInfo_extends lower_ascii "gr" example_pick).
  reflexivity.
Defined.

(** ** More on the scan: plan view, vertical sections, exact hits *)

Section ScanFacts.

Local Open Scope float_scope.

Lemma eqb_leb a b : (a =? b) = true -> (a <=? b) = true /\ (b <=? a) = true.
Proof.
  rewrite FloatOrder.eqb_cmp, !FloatOrder.leb_cmp. unfold JsNumber.cmp.
  rewrite (FloatOrder.SFcompare_swap (Prim2SF a) (Prim2SF b)).
  intros ->. simpl. auto.
Qed.

(** The scan reads the first two components of the vertices and of the
    coordinate and nothing else: trajectories that agree in plan view (their
    depths may differ, or be missing) give the same [vertex_index] and
    [min_d]. *)
Theorem nearest_vertex_plan_view (t1 t2 : list sample) (c1 c2 : list float) :
  Forall2 (fun a b => component a 0 = component b 0
                      /\ component a 1 = component b 1) t1 t2 ->
  coordinate_component c1 0 = coordinate_component c2 0 ->
  coordinate_component c1 1 = coordinate_component c2 1 ->
  nearest_vertex t1 (Some c1) = nearest_vertex t2 (Some c2).
Proof.
  intros Hvertices Hx Hy. unfold nearest_vertex. rewrite !nearest_from_scan.
  f_equal. f_equal.
  induction Hvertices as [|a b t1 t2 [Ha0 Ha1] _ IH]; simpl; [reflexivity|].
  rewrite IH. f_equal. unfold squared_distance.
  rewrite Ha0, Ha1, Hx, Hy. reflexivity.
Qed.

Lemma nearest_vertex_plan_view_witness :
  nearest_vertex [Pt [0; 0; 10]; Pt [3; 4; 20]; Pt [6; 8; 30]] (Some [3; 3; 0])
  = nearest_vertex [Pt [0; 0]; Pt [3; 4; -7]; Pt [6; 8; 0]] (Some [3; 3]).
Proof.
  apply nearest_vertex_plan_view.
  - repeat constructor.
  - reflexivity.
  - reflexivity.
Defined.

(** A section all of whose vertices are at the same squared distance from
    the pointer (a vertical section seen in plan view), that distance being
    at most [Number.MAX_VALUE]: the scan ends on the last vertex. *)
Theorem nearest_vertex_vertical (trajectory : list sample) (c : list float) (d : float) :
  trajectory <> [] ->
  Forall (fun a => squared_distance a c = d) trajectory ->
  (d <=? JsNumber.MAX_VALUE) = true ->
  nearest_vertex trajectory (Some c) = Ok ((length trajectory - 1)%nat, d).
Proof.
  intros Hne Hsame Hfin. unfold nearest_vertex. rewrite nearest_from_scan.
  set (ds := map (fun a => squared_distance a c) trajectory).
  assert (Hds : forall k x, ds !! k = Some x -> x = d).
  { intros k x Hk. destruct (lookup_distance _ _ _ _ Hk) as (a & Ha & <-).
    exact (Forall_lookup_1 _ _ _ _ Hsame Ha). }
  assert (Hlen : length ds = length trajectory) by apply length_map.
  destruct (scan_shape ds 0 0 JsNumber.MAX_VALUE)
    as [[_ Hall]|(k & Hk & Hd & Hlater)].
  - destruct ds as [|x ds'] eqn:E; [destruct trajectory; [congruence|discriminate]|].
    pose proof (Hds 0%nat x eq_refl) as ->.
    pose proof (Hall 0%nat d eq_refl) as Hgt.
    apply FloatOrder.leb_nlt in Hfin. unfold JsNumber.gt in Hgt. congruence.
  - destruct (scan ds 0 0 JsNumber.MAX_VALUE) as [vi m]. simpl in *. subst vi.
    pose proof (Hds k m Hd) as ->.
    pose proof (lookup_lt_Some _ _ _ Hd) as Hlt.
    destruct (le_lt_dec (length ds) (S k)) as [Hlast|Hmore].
    + do 2 f_equal. lia.
    + destruct (lookup_lt_is_Some_2 ds (S k) Hmore) as [x Hx].
      pose proof (Hds _ _ Hx) as ->.
      pose proof (Hlater (S k) d ltac:(lia) Hx) as Hgt.
      unfold JsNumber.gt in Hgt. rewrite FloatArith.ltb_irrefl in Hgt. discriminate.
Qed.

Lemma nearest_vertex_vertical_witness :
  nearest_vertex [Pt [3; 4; 0]; Pt [3; 4; 10]; Pt [3; 4; 20]] (Some [0; 0])
  = Ok (2%nat, 25).
Proof.
  apply (nearest_vertex_vertical [Pt [3; 4; 0]; Pt [3; 4; 10]; Pt [3; 4; 20]]
           [0; 0] 25).
  - discriminate.
  - repeat constructor.
  - reflexivity.
Defined.

(** An exact hit: when no squared distance is [NaN] and some vertex is at
    squared distance zero from the pointer, the vertex at the
    [vertex_index] computed is at squared distance zero too. *)
Theorem nearest_vertex_exact_hit (trajectory : list sample) (c : list float)
    (j : nat) (aj : sample) :
  trajectory !! j = Some aj ->
  (squared_distance aj c =? 0) = true ->
  Forall (fun a => is_nan (squared_distance a c) = false) trajectory ->
  exists vertex_index min_d av,
    nearest_vertex trajectory (Some c) = Ok (vertex_index, min_d)
    /\ trajectory !! vertex_index = Some av
    /\ (squared_distance av c =? 0) = true.
Proof.
  intros Hj Hzero Hnan. unfold nearest_vertex. rewrite nearest_from_scan.
  set (ds := map (fun a => squared_distance a c) trajectory).
  assert (Hdj : ds !! j = Some (squared_distance aj c)).
  { unfold ds. rewrite lookup_map, Hj. reflexivity. }
  destruct (eqb_leb _ _ Hzero) as [Hle0 Hge0].
  destruct (scan_shape ds 0 0 JsNumber.MAX_VALUE)
    as [[_ Hall]|(k & Hk & Hd & _)].
  - apply Hall in Hdj. apply FloatOrder.gt_MAX_VALUE in Hdj.
    rewrite Hdj in Hzero. discriminate.
  - destruct (lookup_distance _ _ _ _ Hd) as (av & Hav & Hdist).
    destruct (scan ds 0 0 JsNumber.MAX_VALUE) as [vi m] eqn:Hscan.
    simpl in *. subst vi. exists k, m, av.
    split; [reflexivity|]. split; [exact Hav|]. rewrite Hdist.
    assert (Hds : Forall (fun d => is_nan d = false) ds).
    { unfold ds. apply Forall_map. exact Hnan. }
    destruct (scan_lower_bound ds 0 0 JsNumber.MAX_VALUE eq_refl Hds) as [_ Hlow].
    rewrite Hscan in Hlow. simpl in Hlow.
    pose proof (Forall_lookup_1 _ _ _ _ Hlow Hdj) as Hmj.
    apply FloatOrder.leb_antisym.
    + eapply FloatOrder.leb_trans; [exact Hmj|exact Hle0].
    + apply FloatOrder.nlt_leb;
        [exact (proj1 (FloatOrder.leb_not_nan _ _ Hmj))|reflexivity|].
      apply FloatSign.not_below_zero. rewrite <- Hdist. unfold squared_distance.
      apply FloatSign.sum_of_squares_sign.
Qed.

Lemma nearest_vertex_exact_hit_witness :
  exists vertex_index min_d av,
    nearest_vertex [Pt [0; 0]; Pt [3; 4]; Pt [6; 8]] (Some [3; 4])
    = Ok (vertex_index, min_d)
    /\ [Pt [0; 0]; Pt [3; 4]; Pt [6; 8]] !! vertex_index = Some av
    /\ (squared_distance av [3; 4] =? 0) = true.
Proof.
  apply (nearest_vertex_exact_hit [Pt [0; 0]; Pt [3; 4]; Pt [6; 8]] [3; 4]
           1%nat (Pt [3; 4])).
  - reflexivity.
  - reflexivity.
  - repeat constructor.
Defined.

End ScanFacts.

(** ** The callbacks on a layer *)

Section LayerFacts.

Variable toLowerCase : string -> string.
Variable color_interp : float -> string.
Variable color_rgb : string -> option (float * float * float).

Local Abbreviation getLogIDByName := (getLogIDByName toLowerCase).
Local Abbreviation getPickingInfo := (getPickingInfo toLowerCase).
Local Abbreviation layer_getPickingInfo := (layer_getPickingInfo toLowerCase).
Local Abbreviation log_layer := (log_layer toLowerCase color_interp color_rgb).

Lemma propval_string_cases (v : propval) :
  (exists s, v = VString s) \/ (forall s, v <> VString s).
Proof.
  destruct v; eauto; right; discriminate.
Qed.

Lemma with_log_name_not_string {A} (v : propval) (o : LogCurveDataType)
    (f : string -> result A) :
  (forall s, v <> VString s) ->
  with_log_name v o f
  = match curves o with
    | Some (_ :: _) => Throw TypeError
    | _ => f EmptyString
    end.
Proof.
  intros Hv. destruct v; try reflexivity. destruct (Hv s eq_refl).
Qed.

(** The body of [getPickingInfo] reads the trajectory and scans it before
    it looks at the log name; doing so once more ahead of it changes
    nothing. *)
Lemma getPickingInfo_after_scan (s : string) (i : PickInfo)
    (o : LogCurveDataType) (rows : list (list sample)) :
  object i = Some o ->
  data o = Some rows ->
  (let* trajectory := defined (rows !! 0%nat) in
   let* nearest := nearest_vertex trajectory (coordinate i) in
   getPickingInfo s i)
  = getPickingInfo s i.
Proof.
  intros Ho Hd.
  destruct (rows !! 0%nat) as [trajectory|] eqn:Ht; cbn [bind defined];
    [|unfold getPickingInfo; rewrite Ho, Hd, Ht; reflexivity].
  destruct (nearest_vertex trajectory (coordinate i)) as [nearest|e] eqn:Hn;
    cbn [bind]; [reflexivity|].
  unfold getPickingInfo. rewrite Ho, Hd, Ht. cbn [bind defined].
  rewrite Hn. reflexivity.
Qed.

(** With a [logName] that is a string, the pick on the layer is the body
    run with that string. *)
Lemma layer_getPickingInfo_string (layer : WellsLayer) (i : PickInfo) (s : string) :
  prop (props layer) "logName" = VString s ->
  layer_getPickingInfo layer i = getPickingInfo s i.
Proof.
  intros Hname. unfold layer_getPickingInfo. rewrite Hname. unfold with_log_name.
  destruct (object i) as [o|] eqn:Ho;
    [|unfold getPickingInfo; rewrite Ho; reflexivity].
  destruct (data o) as [rows|] eqn:Hd;
    [|unfold getPickingInfo; rewrite Ho, Hd; reflexivity].
  apply (getPickingInfo_after_scan s i o rows Ho Hd).
Qed.

(** C7: the callbacks depend on the layer only through the inputs they
    declare; the rest of the layer is hidden from them.  On two layers whose
    [updateTriggers] for [getColor] ([logName]) agree, the colour accessor is
    the same, so it gives the same result on every log object; likewise for
    the width accessor and its triggers ([logName] and [logRadius]); and on
    two layers with the same [logName], [getPickingInfo] gives the same
    result on every pick.  The other props of the two layers are
    arbitrary. *)
Theorem callbacks_read_declared_inputs_only (layer1 layer2 : WellsLayer) :
  (PathLayer.updateTriggers_getColor <$> path_props (log_layer (props layer1))
   = PathLayer.updateTriggers_getColor <$> path_props (log_layer (props layer2)) ->
   PathLayer.getColor <$> path_props (log_layer (props layer1))
   = PathLayer.getColor <$> path_props (log_layer (props layer2)))
  /\ (PathLayer.updateTriggers_getWidth <$> path_props (log_layer (props layer1))
      = PathLayer.updateTriggers_getWidth <$> path_props (log_layer (props layer2)) ->
      PathLayer.getWidth <$> path_props (log_layer (props layer1))
      = PathLayer.getWidth <$> path_props (log_layer (props layer2)))
  /\ (prop (props layer1) "logName" = prop (props layer2) "logName" ->
      forall i, layer_getPickingInfo layer1 i = layer_getPickingInfo layer2 i).
Proof.
  repeat split.
  - cbn. intros [= Hname]. rewrite Hname. reflexivity.
  - cbn. intros [= Hname Hradius]. unfold getWidth.
    rewrite Hname, Hradius. reflexivity.
  - intros Hname i. unfold layer_getPickingInfo. rewrite Hname. reflexivity.
Qed.

(** When [getPickingInfo] throws on a layer, for a picked object with a
    [data] field: exactly when [data] is empty, or the trajectory is not
    empty and the pick has no coordinate, or [this.props.logName] is no
    string (unset, for one) and the object has a [curves] array, or
    [this.props.logName] is a string, the id found for it is not [0] and
    [data] has no row at it (the id [-1] of a name that no curve has
    included). *)
Theorem layer_getPickingInfo_throws_iff (layer : WellsLayer) (i : PickInfo)
    (o : LogCurveDataType) (rows : list (list sample)) :
  object i = Some o ->
  data o = Some rows ->
  layer_getPickingInfo layer i = Throw TypeError
  <-> (rows !! 0%nat = None
       \/ (exists a rest, rows !! 0%nat = Some (a :: rest) /\ coordinate i = None)
       \/ ((forall s, prop (props layer) "logName" <> VString s)
           /\ exists cs, curves o = Some cs)
       \/ (exists s z, prop (props layer) "logName" = VString s
                       /\ getLogIDByName (Some o) s = Some z
                       /\ z <> 0 /\ at_index rows z = None)).
Proof.
  intros Ho Hrows.
  destruct (propval_string_cases (prop (props layer) "logName"))
    as [[s Hname]|Hname].
  - rewrite (layer_getPickingInfo_string layer i s Hname).
    rewrite (getPickingInfo_throws_cases toLowerCase s i o rows Ho Hrows).
    split.
    + intros [H|[H|(z & Hz)]]; [auto|auto|].
      right. right. right. exists s, z. split; [exact Hname|exact Hz].
    + intros [H|[H|[[Hns _]|(s' & z & Hs' & Hz)]]]; [auto|auto| |].
      * destruct (Hns s Hname).
      * rewrite Hname in Hs'. injection Hs' as <-. right. right. exists z. exact Hz.
  - unfold layer_getPickingInfo. rewrite Ho, Hrows.
    rewrite with_log_name_not_string by exact Hname.
    destruct (curves o) as [[|c cs]|] eqn:Hcs.
    + rewrite (getPickingInfo_after_scan EmptyString i o rows Ho Hrows).
      rewrite (getPickingInfo_throws_cases toLowerCase EmptyString i o rows Ho Hrows).
      split.
      * intros [H|[H|_]]; [auto|auto|].
        right. right. left. split; [exact Hname|]. exists []. reflexivity.
      * intros [H|[H|[_|(s & z & Hs & _)]]]; [auto|auto| |].
        { right. right. exists (-1).
          split; [unfold getLogIDByName; rewrite Hcs; reflexivity|].
          split; [lia|]. apply at_index_negative. lia. }
        destruct (Hname s Hs).
    + split.
      * intros _. right. right. left. split; [exact Hname|].
        exists (c :: cs). reflexivity.
      * intros _. destruct (rows !! 0%nat) as [trajectory|]; [|reflexivity].
        cbn [bind defined].
        destruct (nearest_vertex trajectory (coordinate i)) as [nearest|[]];
          reflexivity.
    + rewrite (getPickingInfo_after_scan EmptyString i o rows Ho Hrows).
      rewrite (getPickingInfo_throws_cases toLowerCase EmptyString i o rows Ho Hrows).
      split.
      * intros [H|[H|(z & Hz & _)]]; [auto|auto|].
        unfold getLogIDByName in Hz. rewrite Hcs in Hz. discriminate Hz.
      * intros [H|[H|[(_ & cs & Hcs')|(s & z & Hs & _)]]]; [auto|auto| |].
        { discriminate Hcs'. }
        destruct (Hname s Hs).
Qed.

End LayerFacts.

(** Two layers with the same [logName] and [logRadius]: one with nothing
    else, one with an outline, a selected well and selection turned off.
    The accessors of their log sublayers and their picks agree. *)
Lemma callbacks_read_declared_inputs_only_witness :
  props example_log_layer !! "selectedFeature" = None
  /\ props example_busy_layer !! "selectedFeature" = Some (VObject example_well)
  /\ PathLayer.getColor
       <$> path_props (log_layer lower_ascii two_color_interp named_rgb
                         (props example_log_layer))
     = PathLayer.getColor
         <$> path_props (log_layer lower_ascii two_color_interp named_rgb
                           (props example_busy_layer))
  /\ PathLayer.getWidth
       <$> path_props (log_layer lower_ascii two_color_interp named_rgb
                         (props example_log_layer))
     = PathLayer.getWidth
         <$> path_props (log_layer lower_ascii two_color_interp named_rgb
                           (props example_busy_layer))
  /\ layer_getPickingInfo lower_ascii example_log_layer example_pick
     = layer_getPickingInfo lower_ascii example_busy_layer example_pick.
Proof.
  destruct (callbacks_read_declared_inputs_only lower_ascii two_color_interp
              named_rgb example_log_layer example_busy_layer)
    as (Hcolor & Hwidth & Hpick).
  split; [reflexivity|]. split; [reflexivity|].
  split; [apply Hcolor; reflexivity|].
  split; [apply Hwidth; reflexivity|].
  apply Hpick. reflexivity.
Defined.

(** The declared input is read: the same pick on the same well returns the
    value of the log on the layer that names it and throws on the layer
    built with no [logName]. *)
Example layer_getPickingInfo_reads_logName :
  layer_getPickingInfo lower_ascii example_log_layer example_pick
  = Ok {| info := example_pick;
          propertyValue := Some (Some (Num 5));
          logName := Some "GR" |}
  /\ layer_getPickingInfo lower_ascii example_busy_layer example_pick
     = Ok {| info := example_pick;
             propertyValue := Some (Some (Num 5));
             logName := Some "GR" |}
  /\ layer_getPickingInfo lower_ascii example_bare_layer example_pick
     = Throw TypeError.
Proof. repeat split; vm_compute; reflexivity. Qed.

(** The pick on the layer built with no [logName] throws on a well that has
    its trajectory, its rows and a coordinate. *)
Lemma layer_getPickingInfo_throws_iff_witness :
  layer_getPickingInfo lower_ascii example_bare_layer example_pick = Throw TypeError.
Proof.
  apply (layer_getPickingInfo_throws_iff lower_ascii example_bare_layer
           example_pick example_well example_rows eq_refl eq_refl).
  right. right. left. split.
  - intros s. vm_compute. discriminate.
  - exists example_curves. reflexivity.
Defined.
